(** * Heuristic PDF section extraction: [src/utils/pdf_processor.py]

    A shallow embedding of the line classifier ([is_title], [is_junk]) and of
    the per-page section accumulator of [extract_structured_sections],
    together with the Python [str] and [re] primitives they call.

    Python strings are sequences of Unicode code points; they are modelled as
    lists of code points ([N]).  The character tables of the Python runtime
    are fixed here on Basic Latin (U+0000..U+007F) and left as a parameter
    ([ucd]) beyond it, so every statement quantified over [U : ucd] holds
    whatever the runtime's tables for the other code points are. *)

From Stdlib Require Import List NArith ZArith Bool Ascii String Lia PeanoNat Sorted.
Import ListNotations.

Local Open Scope N_scope.
Local Open Scope list_scope.

(** ** Python [str] *)

Definition str := list N.

(** A literal of the source, written with Rocq's string notation (the
    literals of the source are all Basic Latin, one byte per code point). *)
Definition py (s : string) : str := map N_of_ascii (list_ascii_of_string s).

(** Truth value of a [str] in a condition: non-empty. *)
Definition truthy (s : str) : bool :=
  match s with [] => false | _ :: _ => true end.

Definition len (s : str) : nat := List.length s.

(** ** Character tables *)

Definition in_range (lo hi c : N) : bool := (lo <=? c) && (c <=? hi).

(** Basic Latin: TAB, LF, VT, FF, CR, FS, GS, RS, US and SPACE are the
    characters for which [str.isspace] holds. *)
Definition ascii_isspace (c : N) : bool := in_range 9 13 c || in_range 28 32 c.
Definition ascii_isdecimal (c : N) : bool := in_range 48 57 c.
Definition ascii_isupper (c : N) : bool := in_range 65 90 c.
Definition ascii_islower (c : N) : bool := in_range 97 122 c.
Definition ascii_lower (c : N) : N := if ascii_isupper c then c + 32 else c.

Definition is_ascii (c : N) : bool := c <? 128.

Definition table (basic ext : N -> bool) (c : N) : bool :=
  if is_ascii c then basic c else ext c.

(** The runtime's tables beyond Basic Latin.  [ext_lower before c after] is
    the lower-case mapping of [c] between [before] and [after] (the mapping
    of a capital sigma depends on its neighbours, and one character may map
    to several).  The tables are consulted beyond Basic Latin only.  The two
    laws are facts of the Unicode case mappings: a mapping is never empty,
    and the mapping of a character that is not white space contains no white
    space. *)
Record ucd : Type := {
  ext_isspace : N -> bool;
  ext_isdecimal : N -> bool;
  ext_isupper : N -> bool;
  ext_islower : N -> bool;
  ext_istitle : N -> bool;
  ext_lower : str -> N -> str -> str;
  ext_lower_nonempty : forall before c after,
      is_ascii c = false -> ext_lower before c after <> [];
  ext_lower_nospace : forall before c after d,
      is_ascii c = false -> ext_isspace c = false ->
      In d (ext_lower before c after) ->
      table ascii_isspace ext_isspace d = false
}.

Section Runtime.

Variable U : ucd.

Definition isspace_c : N -> bool := table ascii_isspace (ext_isspace U).
Definition isdecimal_c : N -> bool := table ascii_isdecimal (ext_isdecimal U).
Definition isupper_c : N -> bool := table ascii_isupper (ext_isupper U).
Definition islower_c : N -> bool := table ascii_islower (ext_islower U).
Definition istitle_c : N -> bool := table (fun _ => false) (ext_istitle U).

Definition lower_c (before : str) (c : N) (after : str) : str :=
  if is_ascii c then [ascii_lower c] else ext_lower U before c after.

(** ** [str] methods *)

(** [str.lower()] *)
Fixpoint lower_from (before s : str) : str :=
  match s with
  | [] => []
  | c :: after => lower_c before c after ++ lower_from (before ++ [c]) after
  end.

Definition lower (s : str) : str := lower_from [] s.

(** [str.strip()] with no argument: white space removed at both ends. *)
Fixpoint lstrip (s : str) : str :=
  match s with
  | [] => []
  | c :: s' => if isspace_c c then lstrip s' else s
  end.

Definition rstrip (s : str) : str := rev (lstrip (rev s)).

Definition strip (s : str) : str := rstrip (lstrip s).

(** [str.split()] with no argument: the maximal runs of characters that are
    not white space, in order.  [cur] is the run being read. *)
Fixpoint split_from (cur s : str) : list str :=
  match s with
  | [] => if truthy cur then [cur] else []
  | c :: s' =>
      if isspace_c c
      then (if truthy cur then cur :: split_from [] s' else split_from [] s')
      else split_from (cur ++ [c]) s'
  end.

Definition split (s : str) : list str := split_from [] s.

(** [text.split(sep)] for a separator of one character: the pieces between
    the occurrences of [sep], empty pieces kept. *)
Fixpoint split_on_from (sep : N) (cur s : str) : list str :=
  match s with
  | [] => [cur]
  | c :: s' =>
      if c =? sep then cur :: split_on_from sep [] s'
      else split_on_from sep (cur ++ [c]) s'
  end.

Definition split_on (sep : N) (s : str) : list str := split_on_from sep [] s.

(** [sep.join(parts)] *)
Fixpoint join (sep : str) (parts : list str) : str :=
  match parts with
  | [] => []
  | [w] => w
  | w :: rest => w ++ sep ++ join sep rest
  end.

(** [" ".join(s.split())], the white-space normalisation of a text block *)
Definition normalize (s : str) : str := join (py " ") (split s).

(** [s.startswith(p)], [s.endswith(p)] and [p in s] *)
Fixpoint startswith (s p : str) {struct p} : bool :=
  match p, s with
  | [], _ => true
  | _ :: _, [] => false
  | a :: p', b :: s' => (a =? b) && startswith s' p'
  end.

Definition endswith (s p : str) : bool := startswith (rev s) (rev p).

Fixpoint contains (s p : str) : bool :=
  startswith s p || match s with [] => false | _ :: s' => contains s' p end.

(** [str.isupper()]: no lower-case or title-case character and at least one
    upper-case one; a string of one character is decided by that character. *)
Fixpoint isupper_loop (cased : bool) (s : str) : bool :=
  match s with
  | [] => cased
  | c :: s' =>
      if islower_c c || istitle_c c then false
      else isupper_loop (cased || isupper_c c) s'
  end.

Definition isupper (s : str) : bool :=
  match s with
  | [c] => isupper_c c
  | _ => isupper_loop false s
  end.

(** [str.istitle()]: upper-case and title-case characters only after an
    uncased character, lower-case characters only after a cased one, and at
    least one cased character. *)
Fixpoint istitle_loop (cased previous_is_cased : bool) (s : str) : bool :=
  match s with
  | [] => cased
  | c :: s' =>
      if isupper_c c || istitle_c c then
        if previous_is_cased then false else istitle_loop true true s'
      else if islower_c c then
        if previous_is_cased then istitle_loop true true s' else false
      else istitle_loop cased false s'
  end.

Definition istitle (s : str) : bool :=
  match s with
  | [c] => istitle_c c || isupper_c c
  | _ => istitle_loop false false s
  end.

(** ** [re]: regular expressions

    The patterns of the source use character sets, concatenation,
    alternation and repetition only.  A pattern is translated to its syntax
    tree; matching is by derivatives, which decides, as the backtracking
    matcher of [re] does for such patterns, whether some way of matching
    exists. *)

Inductive charset : Type :=
| Chr (c : N)             (* a literal character, escaped or not *)
| Range (lo hi : N)       (* [lo-hi] *)
| OneOf (cs : str)        (* [abc] *)
| Space                   (* \s *)
| Digit.                  (* \d *)

Inductive regex : Type :=
| Void
| Eps
| Sym (cs : charset)
| Cat (r1 r2 : regex)
| Alt (r1 r2 : regex)
| Star (r : regex).

(** [r+], [r{1,2}] and a literal word *)
Definition Plus (r : regex) : regex := Cat r (Star r).
Definition Rep_1_2 (r : regex) : regex := Cat r (Alt r Eps).
Definition Lit (w : str) : regex := fold_right (fun c r => Cat (Sym (Chr c)) r) Eps w.

Definition in_charset (cs : charset) (c : N) : bool :=
  match cs with
  | Chr d => c =? d
  | Range lo hi => in_range lo hi c
  | OneOf l => existsb (N.eqb c) l
  | Space => isspace_c c
  | Digit => isdecimal_c c
  end.

Fixpoint nullable (r : regex) : bool :=
  match r with
  | Void => false
  | Eps => true
  | Sym _ => false
  | Cat r1 r2 => nullable r1 && nullable r2
  | Alt r1 r2 => nullable r1 || nullable r2
  | Star _ => true
  end.

Fixpoint deriv (c : N) (r : regex) : regex :=
  match r with
  | Void => Void
  | Eps => Void
  | Sym cs => if in_charset cs c then Eps else Void
  | Cat r1 r2 =>
      if nullable r1 then Alt (Cat (deriv c r1) r2) (deriv c r2)
      else Cat (deriv c r1) r2
  | Alt r1 r2 => Alt (deriv c r1) (deriv c r2)
  | Star r1 => Cat (deriv c r1) (Star r1)
  end.

(** The whole of [s] matches [r]. *)
Fixpoint fullmatch (r : regex) (s : str) : bool :=
  match s with
  | [] => nullable r
  | c :: s' => fullmatch (deriv c r) s'
  end.

(** [re.match(r, s)] as a condition: some prefix of [s] matches [r]. *)
Fixpoint re_match (r : regex) (s : str) : bool :=
  nullable r ||
  match s with
  | [] => false
  | c :: s' => re_match (deriv c r) s'
  end.

(** [re.search('^(r)$', s)] as a condition.  Without the MULTILINE flag [^]
    holds at position 0 only, so the search succeeds only from there, and [$]
    holds at the end of [s] and just before a line feed that ends [s]. *)
Definition re_search_anchored (r : regex) (s : str) : bool :=
  fullmatch r s ||
  match rev s with
  | 10 :: before => fullmatch r (rev before)
  | _ => false
  end.

Definition ch (a : ascii) : N := N_of_ascii a.

(** [^\s*(\d{1,2}\.|[A-Z]\.|\([a-z]\)|\([ivx]+\)|•)\s+], the bullet being
    U+2022 *)
Definition title_pattern : regex :=
  Cat (Star (Sym Space))
    (Cat
       (Alt (Cat (Rep_1_2 (Sym Digit)) (Sym (Chr (ch "."))))
       (Alt (Cat (Sym (Range (ch "A") (ch "Z"))) (Sym (Chr (ch "."))))
       (Alt (Cat (Sym (Chr (ch "("))) (Cat (Sym (Range (ch "a") (ch "z"))) (Sym (Chr (ch ")")))))
       (Alt (Cat (Sym (Chr (ch "("))) (Cat (Plus (Sym (OneOf (py "ivx")))) (Sym (Chr (ch ")")))))
            (Sym (Chr 8226))))))
       (Plus (Sym Space))).

(** [(page\s*\d+|\d+\s*of\s*\d+)], the body of [^(...)$] *)
Definition page_pattern : regex :=
  Alt (Cat (Lit (py "page")) (Cat (Star (Sym Space)) (Plus (Sym Digit))))
      (Cat (Plus (Sym Digit))
         (Cat (Star (Sym Space))
            (Cat (Lit (py "of")) (Cat (Star (Sym Space)) (Plus (Sym Digit)))))).

(** ** The line classifier *)

Definition is_title (line : str) : bool :=
  let stripped_line := strip line in
  if negb (truthy stripped_line) || (120 <? len stripped_line)%nat then false
  else if endswith stripped_line (py ".") then false
  else if re_match title_pattern stripped_line then true
  else if (List.length (split stripped_line) <? 8)%nat then
    if isupper stripped_line then true
    else if istitle stripped_line then true
    else false
  else false.

Definition junk_keywords : list str :=
  map py
    ["uin:"; "irda"; "regn. no."; "reg. no."; "cin:"; "gstin";
     "subject matter of solicitation"; "trade logo"; "corporate office";
     "registered office"; "toll-free"; "website:"; "e-mail"; ".com"; ".in";
     "confidential"; "internal use"]%string.

Definition is_junk (line : str) : bool :=
  let stripped_line := lower (strip line) in
  if negb (truthy stripped_line) then true
  else if existsb (fun keyword => contains stripped_line keyword) junk_keywords then true
  else if re_search_anchored page_pattern stripped_line then true
  else false.

(** ** Section records *)

(** One element of [structured_data]: the dictionary with the keys ["id"],
    ["page_number"], ["title"], ["text"] and ["source"]. *)
Record section : Type := {
  id : str;
  page_number : nat;
  title : str;
  text : str;
  source : str
}.

(** The four fields other than the generated ["id"]. *)
Definition content (r : section) : nat * str * str * str :=
  (page_number r, title r, text r, source r).

(** ** The section accumulator *)

Definition default_title : str := py "General Information".

(** The variables of [extract_structured_sections] that the loop over the
    lines reads and writes.  [uuid_calls] counts the calls of [uuid.uuid4]
    made so far; the identifier a call returns is [uuid4 n], [uuid4] being
    the sequence of identifiers the run draws. *)
Record loop_state : Type := {
  structured_data : list section;
  uuid_calls : nat;
  current_title : str;
  current_text_block : str
}.

Variable uuid4 : nat -> str.
Variable pdf_path : str.

(** The dictionary built for the section that is complete. *)
Definition new_section (page_num : nat) (st : loop_state) : section :=
  {| id := uuid4 (uuid_calls st);
     page_number := page_num + 1;
     title := current_title st;
     text := normalize (current_text_block st);
     source := pdf_path |}.

(** [structured_data.append({...})] *)
Definition append_section (page_num : nat) (st : loop_state) : loop_state :=
  {| structured_data := structured_data st ++ [new_section page_num st];
     uuid_calls := S (uuid_calls st);
     current_title := current_title st;
     current_text_block := current_text_block st |}.

(** [if current_text_block.strip(): structured_data.append({...})] *)
Definition save_section (page_num : nat) (st : loop_state) : loop_state :=
  if truthy (strip (current_text_block st)) then append_section page_num st
  else st.

(** The body of [for line in lines]. *)
Definition line_step (page_num : nat) (st : loop_state) (line : str) : loop_state :=
  if is_title line then
    let st' := save_section page_num st in
    {| structured_data := structured_data st';
       uuid_calls := uuid_calls st';
       current_title := strip line;
       current_text_block := [] |}
  else if negb (is_junk line) then
    {| structured_data := structured_data st;
       uuid_calls := uuid_calls st;
       current_title := current_title st;
       current_text_block := current_text_block st ++ py " " ++ strip line |}
  else st.

(** The loop over the lines of a page and the save that follows it. *)
Definition page_lines (page_num : nat) (st : loop_state) (lines : list str) : loop_state :=
  save_section page_num (fold_left (line_step page_num) lines st).

(** ** The extraction driver *)

(** What the loop over the pages carries from one page to the next: the list
    built so far, the number of identifiers drawn, and the values the
    function's variables [current_title] and [current_text_block] were left
    with ([None] before the first page, where they are unbound). *)
Record doc_state : Type := {
  doc_data : list section;
  doc_uuid_calls : nat;
  doc_locals : option (str * str)
}.

(** The state in which the loop over the lines of a page starts: the two
    assignments at the top of the body of the loop over the pages. *)
Definition page_entry (d : doc_state) : loop_state :=
  {| structured_data := doc_data d;
     uuid_calls := doc_uuid_calls d;
     current_title := default_title;
     current_text_block := [] |}.

Definition page_exit (st : loop_state) : doc_state :=
  {| doc_data := structured_data st;
     doc_uuid_calls := uuid_calls st;
     doc_locals := Some (current_title st, current_text_block st) |}.

(** The body of [for page_num, page in enumerate(...)]; [page_text] is the
    text the backend extracted from the page. *)
Definition page_step (d : doc_state) (page : nat * str) : doc_state :=
  let (page_num, page_text) := page in
  let lines := split_on 10 page_text in
  page_exit (page_lines page_num (page_entry d) lines).

(** [enumerate(pages)] *)
Definition enumerate {A : Type} (l : list A) : list (nat * A) :=
  combine (seq 0 (List.length l)) l.

Definition doc_start : doc_state :=
  {| doc_data := []; doc_uuid_calls := 0; doc_locals := None |}.

Definition run_pages (pages : list str) : doc_state :=
  fold_left page_step (enumerate pages) doc_start.

(** The library found when the module was imported. *)
Inductive pdf_library : Type := pymupdf | pypdf2.

(** [extract_structured_sections(pdf_path)]; [pages] are the texts of the
    pages of the document at [pdf_path], in order, as the library in use
    extracts them.  The two branches run the same loops. *)
Definition extract_structured_sections (PDF_LIBRARY : pdf_library) (pages : list str)
  : list section :=
  match PDF_LIBRARY with
  | pymupdf => doc_data (run_pages pages)
  | pypdf2 => doc_data (run_pages pages)
  end.

End Runtime.

(** * Properties *)

(** ** An instance of the character tables *)

(** The instance in which every code point beyond Basic Latin is a caseless
    symbol (as the bullet U+2022 is). *)
Definition symbols_lower (_ : str) (c : N) (_ : str) : str := [c].

Lemma symbols_lower_nonempty before c after :
  is_ascii c = false -> symbols_lower before c after <> [].
Proof. discriminate. Qed.

Lemma symbols_lower_nospace before c after d :
  is_ascii c = false -> (fun _ : N => false) c = false ->
  In d (symbols_lower before c after) ->
  table ascii_isspace (fun _ => false) d = false.
Proof.
  intros Hc _ [<- | []]. unfold table. now rewrite Hc.
Qed.

Definition basic_latin : ucd := {|
  ext_isspace := fun _ => false;
  ext_isdecimal := fun _ => false;
  ext_isupper := fun _ => false;
  ext_islower := fun _ => false;
  ext_istitle := fun _ => false;
  ext_lower := symbols_lower;
  ext_lower_nonempty := symbols_lower_nonempty;
  ext_lower_nospace := symbols_lower_nospace
|}.


(** ** White space at the ends of a line *)

Section Strip.

Variable U : ucd.

Lemma lstrip_keeps_last s c :
  isspace_c U c = false -> exists t, lstrip U (s ++ [c]) = t ++ [c].
Proof.
  intros Hc. induction s as [| a s IH]; simpl.
  - rewrite Hc. now exists [].
  - destruct (isspace_c U a); [exact IH | now exists (a :: s)].
Qed.

Lemma rstrip_keeps_last t c :
  isspace_c U c = false -> rstrip U (t ++ [c]) = t ++ [c].
Proof.
  intros Hc. unfold rstrip. rewrite rev_app_distr. simpl. rewrite Hc.
  simpl. now rewrite rev_involutive.
Qed.

Lemma strip_keeps_last s c :
  isspace_c U c = false -> exists t, strip U (s ++ [c]) = t ++ [c].
Proof.
  intros Hc. destruct (lstrip_keeps_last s c Hc) as [t Ht].
  exists t. unfold strip. rewrite Ht. now apply rstrip_keeps_last.
Qed.

Lemma endswith_last t c : endswith (t ++ [c]) [c] = true.
Proof.
  unfold endswith. rewrite rev_app_distr. simpl. now rewrite N.eqb_refl.
Qed.

End Strip.

(** ** The title predicate *)

(** C7: a line whose last character is a full stop is never a title,
    whatever precedes the full stop (an enumerator such as ["(a) Scope."]
    included). *)
Theorem is_title_ends_with_period (U : ucd) (s : str) :
  is_title U (s ++ py ".") = false.
Proof.
  unfold is_title.
  destruct (strip_keeps_last U s (ch ".")) as [t Ht]; [reflexivity |].
  change (py ".") with [ch "."]. rewrite Ht.
  destruct (negb (truthy (t ++ [ch "."])) || (120 <? len (t ++ [ch "."]))%nat);
    [reflexivity |].
  now rewrite endswith_last.
Qed.

Example is_title_enumerated_sentence (U : ucd) :
  is_title U (py "(a) Scope") = true /\ is_title U (py "(a) Scope.") = false.
Proof. split; vm_compute; reflexivity. Qed.

(** C2 (as the code has it): a line whose trimmed form is longer than 120
    characters is never a title. *)
Theorem is_title_long_stripped (U : ucd) (line : str) :
  (120 < len (strip U line))%nat -> is_title U line = false.
Proof.
  intros H. unfold is_title. apply Nat.ltb_lt in H. rewrite H.
  now rewrite orb_true_r.
Qed.

Lemma is_title_long_stripped_witness :
  (120 < len (strip basic_latin (repeat (ch "A") 121)))%nat /\
  is_title basic_latin (repeat (ch "A") 121) = false.
Proof.
  assert (H : (120 < len (strip basic_latin (repeat (ch "A") 121)))%nat)
    by (apply Nat.ltb_lt; vm_compute; reflexivity).
  split; [exact H | exact (is_title_long_stripped basic_latin _ H)].
Defined.

(** The length that counts is the one after trimming: the 121 characters of
    an ["A"] followed by 120 spaces are a title, whatever the tables beyond
    Basic Latin. *)
Definition padded_title : str := py "A" ++ repeat (ch " ") 120.

Lemma is_title_long_padded :
  padded_title <> [] /\ (120 < len padded_title)%nat /\
  forall U : ucd, is_title U padded_title = true.
Proof.
  split; [discriminate |]. split.
  - apply Nat.ltb_lt. vm_compute. reflexivity.
  - intros U. vm_compute. reflexivity.
Qed.

Example classifier_empty_line (U : ucd) :
  is_title U [] = false /\ is_junk U [] = true.
Proof. split; reflexivity. Qed.

(** ** The end-to-end example *)

Definition example_lines : list str :=
  map py ["REVENUE SUMMARY"; "Total income was 500."; "Page 1"; "1. Risks";
          "Risk text here."]%string.

Section Example_page.

Variables (U : ucd) (uuid4 : nat -> str) (pdf_path : str).

Definition example_records : list section :=
  structured_data
    (page_lines U uuid4 pdf_path 0 (page_entry doc_start) example_lines).

(** How the five lines are classified: the first, the third and the fourth
    are titles, the other two are content. *)
Lemma example_classes :
  map (is_title U) example_lines = [true; false; true; true; false] /\
  map (is_junk U) example_lines = [false; false; true; false; false].
Proof. split; vm_compute; reflexivity. Qed.

End Example_page.

(** C1 (as the code has it): the page of the example yields exactly two
    records; the first has title ["REVENUE SUMMARY"] and text
    ["Total income was 500."], the second has title ["1. Risks"] and text
    ["Risk text here."].  They are what [extract_structured_sections] returns
    for the document of that single page. *)
Theorem example_page_records (U : ucd) (uuid4 : nat -> str) (pdf_path : str)
  (PDF_LIBRARY : pdf_library) :
  map (fun r => (title r, text r)) (example_records U uuid4 pdf_path) =
  [ (py "REVENUE SUMMARY", py "Total income was 500.");
    (py "1. Risks", py "Risk text here.") ] /\
  extract_structured_sections U uuid4 pdf_path PDF_LIBRARY
    [join [ch "010"] example_lines] =
  example_records U uuid4 pdf_path.
Proof.
  split; [vm_compute; reflexivity |].
  destruct PDF_LIBRARY; vm_compute; reflexivity.
Qed.

(** The first record of the example is not the one titled
    ["General Information"]: its title is the first line, which is a title
    line, and its text does not contain that line. *)
Lemma example_first_record_not_default :
  ~ (exists (U : ucd) (uuid4 : nat -> str) (pdf_path : str) (r1 r2 : section),
        example_records U uuid4 pdf_path = [r1; r2] /\
        title r1 = py "General Information" /\
        text r1 = py "REVENUE SUMMARY Total income was 500.").
Proof.
  intros (U & uuid4 & pdf_path & r1 & r2 & Hout & Ht & _).
  assert (E : map title (example_records U uuid4 pdf_path) =
              [py "REVENUE SUMMARY"; py "1. Risks"])
    by (vm_compute; reflexivity).
  rewrite Hout in E. simpl map in E. injection E as E _.
  rewrite Ht in E. vm_compute in E. discriminate E.
Qed.

(** ** White-space normalisation *)

Section Normalize.

Variable U : ucd.

(** A word: non-empty and free of white space. *)
Definition word (w : str) : Prop :=
  w <> [] /\ forallb (fun c => negb (isspace_c U c)) w = true.

Lemma truthy_nonempty (w : str) : w <> [] -> truthy w = true.
Proof. destruct w; [congruence | reflexivity]. Qed.

Lemma truthy_app_r (s : str) (c : N) : truthy (s ++ [c]) = true.
Proof. now destruct s. Qed.

Lemma split_from_words (s cur : str) :
  forallb (fun c => negb (isspace_c U c)) cur = true ->
  Forall word (split_from U cur s).
Proof.
  revert cur. induction s as [| c s IH]; intros cur Hcur; simpl.
  - destruct cur as [| a cur]; simpl; [constructor |].
    constructor; [split; [discriminate | exact Hcur] | constructor].
  - destruct (isspace_c U c) eqn:Hc.
    + destruct cur as [| a cur]; simpl; [now apply IH |].
      constructor; [split; [discriminate | exact Hcur] | now apply IH].
    + apply IH. rewrite forallb_app, Hcur. simpl. now rewrite Hc.
Qed.

Lemma split_words (s : str) : Forall word (split U s).
Proof. now apply split_from_words. Qed.

Lemma split_from_word (w cur s : str) :
  forallb (fun c => negb (isspace_c U c)) w = true ->
  split_from U cur (w ++ s) = split_from U (cur ++ w) s.
Proof.
  revert cur. induction w as [| c w IH]; intros cur Hw; simpl.
  - now rewrite app_nil_r.
  - simpl in Hw. apply andb_true_iff in Hw as [Hc Hw].
    apply negb_true_iff in Hc. rewrite Hc, IH by exact Hw.
    now rewrite <- app_assoc.
Qed.

Lemma split_join (ws : list str) :
  Forall word ws -> split U (join (py " ") ws) = ws.
Proof.
  induction 1 as [| w ws [Hne Hw] Hws IH]; [reflexivity |].
  unfold split in *. destruct ws as [| w' ws].
  - simpl. rewrite <- (app_nil_r w) at 1.
    rewrite split_from_word by exact Hw. simpl.
    now rewrite truthy_nonempty.
  - change (join (py " ") (w :: w' :: ws))
      with (w ++ ch " " :: join (py " ") (w' :: ws)).
    remember (join (py " ") (w' :: ws)) as rest eqn:Hrest.
    rewrite split_from_word by exact Hw. simpl.
    change (isspace_c U (ch " ")) with true. cbv iota.
    now rewrite truthy_nonempty, IH.
Qed.

End Normalize.

(** C8: normalising white space twice is the same as normalising once. *)
Theorem normalize_idempotent (U : ucd) (s : str) :
  normalize U (normalize U s) = normalize U s.
Proof.
  unfold normalize at 1 3. unfold normalize.
  now rewrite split_join by apply split_words.
Qed.

Example normalize_example (U : ucd) :
  normalize U (py "  Total   income was  500. ") = py "Total income was 500.".
Proof. vm_compute. reflexivity. Qed.

(** ** The accumulator: what a page appends *)

Local Open Scope nat_scope.

Section Accumulator.

Variables (U : ucd) (uuid4 : nat -> str) (pdf_path : str).

Abbreviation new_section := (new_section U uuid4 pdf_path).
Abbreviation save_section := (save_section U uuid4 pdf_path).
Abbreviation line_step := (line_step U uuid4 pdf_path).
Abbreviation page_lines := (page_lines U uuid4 pdf_path).
Abbreviation page_step := (page_step U uuid4 pdf_path).

(** [st] with [l] put in front of the list it has built. *)
Definition with_front (l : list section) (st : loop_state) : loop_state :=
  {| structured_data := l ++ structured_data st;
     uuid_calls := uuid_calls st;
     current_title := current_title st;
     current_text_block := current_text_block st |}.

(** An accumulator that starts afresh, [calls] identifiers having been drawn. *)
Definition fresh (calls : nat) : loop_state :=
  {| structured_data := [];
     uuid_calls := calls;
     current_title := default_title;
     current_text_block := [] |}.

Lemma save_section_front l n st :
  save_section n (with_front l st) = with_front l (save_section n st).
Proof.
  unfold save_section. simpl. destruct (truthy _); [| reflexivity].
  unfold append_section, with_front. simpl. now rewrite app_assoc.
Qed.

Lemma line_step_front l n st line :
  line_step n (with_front l st) line = with_front l (line_step n st line).
Proof.
  unfold line_step. destruct (is_title U line).
  - rewrite save_section_front. reflexivity.
  - destruct (negb (is_junk U line)); reflexivity.
Qed.

Lemma page_lines_front l n lines st :
  page_lines n (with_front l st) lines = with_front l (page_lines n st lines).
Proof.
  unfold page_lines. revert st.
  induction lines as [| line lines IH]; intros st; simpl.
  - apply save_section_front.
  - rewrite line_step_front. apply IH.
Qed.

Lemma page_entry_front d :
  page_entry d = with_front (doc_data d) (fresh (doc_uuid_calls d)).
Proof. unfold page_entry, with_front. simpl. now rewrite app_nil_r. Qed.

(** The records of one page: those of an accumulator started afresh. *)
Definition page_records (calls page_num : nat) (page_text : str) : list section :=
  structured_data (page_lines page_num (fresh calls) (split_on 10 page_text)).

Lemma page_step_data d page_num page_text :
  doc_data (page_step d (page_num, page_text)) =
  doc_data d ++ page_records (doc_uuid_calls d) page_num page_text.
Proof.
  unfold page_step, page_records. simpl.
  now rewrite page_entry_front, page_lines_front.
Qed.

(** Every record costs one identifier. *)
Lemma save_section_calls n st :
  uuid_calls (save_section n st) + List.length (structured_data st) =
  uuid_calls st + List.length (structured_data (save_section n st)).
Proof.
  unfold save_section. destruct (truthy _); [| reflexivity].
  simpl. rewrite length_app. simpl. lia.
Qed.

Lemma line_step_calls n st line :
  uuid_calls (line_step n st line) + List.length (structured_data st) =
  uuid_calls st + List.length (structured_data (line_step n st line)).
Proof.
  unfold line_step. destruct (is_title U line).
  - simpl. apply save_section_calls.
  - destruct (negb (is_junk U line)); reflexivity.
Qed.

Lemma page_lines_calls n lines st :
  uuid_calls (page_lines n st lines) + List.length (structured_data st) =
  uuid_calls st + List.length (structured_data (page_lines n st lines)).
Proof.
  unfold page_lines. revert st.
  induction lines as [| line lines IH]; intros st; simpl.
  - apply save_section_calls.
  - specialize (IH (line_step n st line)).
    pose proof (line_step_calls n st line). lia.
Qed.

Lemma page_step_calls d page_num page_text :
  doc_uuid_calls (page_step d (page_num, page_text)) =
  doc_uuid_calls d + List.length (page_records (doc_uuid_calls d) page_num page_text).
Proof.
  unfold page_step, page_records. simpl.
  pose proof (page_lines_calls page_num (split_on 10 page_text)
                (fresh (doc_uuid_calls d))) as Hfresh.
  rewrite page_entry_front, page_lines_front. simpl in *. lia.
Qed.

(** A property of the records that holds of every new record holds of the
    list, if it held before the page. *)
Section Records_invariant.

Variable P : section -> Prop.
Variable n : nat.
Hypothesis new_ok :
  forall st, truthy (strip U (current_text_block st)) = true -> P (new_section n st).

Lemma save_section_Forall st :
  Forall P (structured_data st) -> Forall P (structured_data (save_section n st)).
Proof.
  intros H. unfold save_section.
  destruct (truthy _) eqn:E; [| exact H].
  simpl. apply Forall_app. split; [exact H |].
  constructor; [now apply new_ok | constructor].
Qed.

Lemma line_step_Forall st line :
  Forall P (structured_data st) -> Forall P (structured_data (line_step n st line)).
Proof.
  intros H. unfold line_step. destruct (is_title U line).
  - simpl. now apply save_section_Forall.
  - destruct (negb (is_junk U line)); exact H.
Qed.

Lemma page_lines_Forall lines st :
  Forall P (structured_data st) -> Forall P (structured_data (page_lines n st lines)).
Proof.
  unfold page_lines. revert st.
  induction lines as [| line lines IH]; intros st H; simpl.
  - now apply save_section_Forall.
  - apply IH. now apply line_step_Forall.
Qed.

End Records_invariant.

Lemma page_records_Forall (P : section -> Prop) calls n page_text :
  (forall st, truthy (strip U (current_text_block st)) = true -> P (new_section n st)) ->
  Forall P (page_records calls n page_text).
Proof.
  intros H. unfold page_records. apply page_lines_Forall; [exact H | constructor].
Qed.

End Accumulator.

(** ** Records are saved for non-empty text only *)

Section Nonblank.

Variable U : ucd.

Lemma lstrip_nonempty (b : str) :
  lstrip U b <> [] -> existsb (fun c => negb (isspace_c U c)) b = true.
Proof.
  induction b as [| c b IH]; simpl; [congruence |].
  destruct (isspace_c U c); simpl; [exact IH | reflexivity].
Qed.

Lemma strip_nonempty (b : str) :
  truthy (strip U b) = true -> existsb (fun c => negb (isspace_c U c)) b = true.
Proof.
  intros H. apply lstrip_nonempty. intros E.
  unfold strip in H. rewrite E in H. discriminate H.
Qed.

Lemma split_from_nonempty (s cur : str) :
  existsb (fun c => negb (isspace_c U c)) s = true \/ truthy cur = true ->
  split_from U cur s <> [].
Proof.
  revert cur. induction s as [| c s IH]; intros cur H; simpl in *.
  - destruct H as [H | H]; [discriminate H |]. rewrite H. discriminate.
  - destruct (isspace_c U c); simpl in H.
    + destruct (truthy cur); [discriminate |].
      apply IH. destruct H as [H | H]; [now left | discriminate H].
    + apply IH. right. apply truthy_app_r.
Qed.

Lemma join_nonempty (sep : str) (ws : list str) :
  Forall (word U) ws -> ws <> [] -> join sep ws <> [].
Proof.
  intros Hws Hne. destruct Hws as [| w ws [Hw _] _]; [congruence |].
  destruct w as [| c w]; [congruence |]. destruct ws; discriminate.
Qed.

Lemma normalize_nonempty (b : str) :
  truthy (strip U b) = true -> normalize U b <> [].
Proof.
  intros H. unfold normalize. apply join_nonempty; [apply split_words |].
  apply split_from_nonempty. left. now apply strip_nonempty.
Qed.

End Nonblank.


Lemma page_without_content (U : ucd) (uuid4 : nat -> str) (pdf_path : str)
  (page_num : nat) (lines : list str) (st : loop_state) :
  current_text_block st = [] ->
  Forall (fun line => is_title U line = true \/ is_junk U line = true) lines ->
  structured_data (fold_left (line_step U uuid4 pdf_path page_num) lines st) =
    structured_data st /\
  current_text_block (fold_left (line_step U uuid4 pdf_path page_num) lines st) = [].
Proof.
  intros Hb Hl. revert st Hb.
  induction Hl as [| line lines Hline _ IH]; intros st Hb; simpl; [now split |].
  assert (Hstep : structured_data (line_step U uuid4 pdf_path page_num st line) =
                    structured_data st /\
                  current_text_block (line_step U uuid4 pdf_path page_num st line) = []).
  { unfold line_step, save_section. destruct (is_title U line) eqn:Ht.
    - rewrite Hb. simpl. now split.
    - destruct Hline as [Hline | Hline]; [congruence |]. rewrite Hline. now split. }
  destruct Hstep as [Hd Hb']. destruct (IH _ Hb') as [IHd IHb].
  split; [now rewrite IHd | exact IHb].
Qed.



(** Two title lines in a row: the first is dropped without a record. *)
Example titles_in_a_row (U : ucd) (uuid4 : nat -> str) (pdf_path : str) :
  map (fun r => (title r, text r))
    (structured_data
       (page_lines U uuid4 pdf_path 0 (fresh 0)
          (map py ["FIRST TITLE"; "SECOND TITLE"; "some text"; "LAST TITLE"]%string))) =
  [(py "SECOND TITLE", py "some text")].
Proof. vm_compute. reflexivity. Qed.

(** ** The loop over the pages *)

Section Driver.

Variables (U : ucd) (uuid4 : nat -> str) (pdf_path : str).

Abbreviation page_step := (page_step U uuid4 pdf_path).
Abbreviation page_records := (page_records U uuid4 pdf_path).

(** The records of the pages [pages], each paired with its index, taken page
    by page: the records of the first page, in the order in which the walk
    over its lines appended them, then those of the others. *)
Fixpoint pages_records (calls : nat) (pages : list (nat * str)) : list section :=
  match pages with
  | [] => []
  | (page_num, page_text) :: rest =>
      let here := page_records calls page_num page_text in
      here ++ pages_records (calls + List.length here) rest
  end.

Lemma fold_page_step (pages : list (nat * str)) (d : doc_state) :
  doc_data (fold_left page_step pages d) =
  doc_data d ++ pages_records (doc_uuid_calls d) pages.
Proof.
  revert d. induction pages as [| [n t] pages IH]; intros d;
    cbn [fold_left pages_records].
  - now rewrite app_nil_r.
  - rewrite IH, page_step_data, page_step_calls. now rewrite app_assoc.
Qed.

Lemma combine_app_aligned {A B : Type} (l1 l1' : list A) (l2 l2' : list B) :
  List.length l1 = List.length l2 ->
  combine (l1 ++ l1') (l2 ++ l2') = combine l1 l2 ++ combine l1' l2'.
Proof.
  revert l2. induction l1 as [| a l1 IH]; intros [| b l2] H; simpl in *;
    try discriminate; [reflexivity |].
  f_equal. apply IH. now injection H.
Qed.

Lemma enumerate_app {A : Type} (l : list A) (x : A) :
  enumerate (l ++ [x]) = enumerate l ++ [(List.length l, x)].
Proof.
  unfold enumerate. rewrite length_app. simpl.
  rewrite Nat.add_1_r, seq_S. simpl.
  rewrite combine_app_aligned by now rewrite length_seq.
  reflexivity.
Qed.

Lemma run_pages_app (before : list str) (page_text : str) :
  run_pages U uuid4 pdf_path (before ++ [page_text]) =
  page_step (run_pages U uuid4 pdf_path before) (List.length before, page_text).
Proof.
  unfold run_pages. now rewrite enumerate_app, fold_left_app.
Qed.

Lemma sorted_after_constant (a : nat) (l1 l2 : list nat) :
  Forall (fun x => x = a) l1 -> Forall (fun x => a <= x) l2 ->
  StronglySorted le l2 -> StronglySorted le (l1 ++ l2).
Proof.
  intros H1 H2 Hs. induction l1 as [| x l1 IH]; [exact Hs |].
  inversion H1 as [| ? ? Hx Hl1]; subst.
  simpl. constructor; [now apply IH |].
  apply Forall_app. split; [| exact H2].
  eapply Forall_impl; [| exact Hl1]. simpl. intros y ->. apply le_n.
Qed.

Lemma pages_records_sorted (texts : list str) (k m calls : nat) :
  Forall (fun r => k + 1 <= page_number r)
    (pages_records calls (combine (seq k m) texts)) /\
  StronglySorted le
    (map page_number (pages_records calls (combine (seq k m) texts))).
Proof.
  revert k m calls. induction texts as [| t texts IH]; intros k m calls.
  - destruct m; simpl; split; constructor.
  - destruct m as [| m]; [simpl; split; constructor |].
    simpl combine. simpl pages_records.
    destruct (IH (S k) m (calls + List.length (page_records calls k t)))
      as [Hge Hsorted].
    assert (Hhere : Forall (fun r => page_number r = k + 1)
                      (page_records calls k t))
      by (apply page_records_Forall; reflexivity).
    split.
    + apply Forall_app. split.
      * eapply Forall_impl; [| exact Hhere]. simpl. intros r ->. lia.
      * eapply Forall_impl; [| exact Hge]. simpl. intros r Hr. lia.
    + rewrite map_app. apply (sorted_after_constant (k + 1)).
      * apply Forall_map. exact Hhere.
      * apply Forall_map. eapply Forall_impl; [| exact Hge].
        simpl. intros r Hr. lia.
      * exact Hsorted.
Qed.

End Driver.

(** C4: nothing of the accumulator crosses a page boundary.  Whatever the
    loop over the pages carries ([d], with the title and the block the last
    page left behind), the loop over the lines of the next page starts with
    the default title and an empty block, and what the page appends is what
    an accumulator started afresh appends; so it is after any pages
    [before]. *)
Theorem page_starts_afresh (U : ucd) (uuid4 : nat -> str) (pdf_path : str)
  (d : doc_state) (page_num : nat) (before : list str) (page_text : str) :
  (current_title (page_entry d) = py "General Information" /\
   current_text_block (page_entry d) = []) /\
  doc_data (page_step U uuid4 pdf_path d (page_num, page_text)) =
    doc_data d ++ page_records U uuid4 pdf_path (doc_uuid_calls d) page_num page_text /\
  (let reached := run_pages U uuid4 pdf_path before in
   current_title (page_entry reached) = py "General Information" /\
   current_text_block (page_entry reached) = [] /\
   doc_data (run_pages U uuid4 pdf_path (before ++ [page_text])) =
     doc_data reached ++
     page_records U uuid4 pdf_path (doc_uuid_calls reached) (List.length before) page_text).
Proof.
  split; [split; reflexivity |]. split; [apply page_step_data |].
  cbv zeta. split; [reflexivity |]. split; [reflexivity |].
  rewrite run_pages_app. apply page_step_data.
Qed.

(** A title and a block left pending by the first page are not seen by the
    second. *)
Example second_page_starts_afresh (U : ucd) (uuid4 : nat -> str) (pdf_path : str) :
  let first := join [10%N] (map py ["INTRODUCTION"; "first text"; "PENDING TITLE"]%string) in
  let second := py "second text" in
  doc_locals (run_pages U uuid4 pdf_path [first]) = Some (py "PENDING TITLE", []) /\
  map (fun r => (page_number r, title r, text r))
    (doc_data (run_pages U uuid4 pdf_path [first; second])) =
  [ (1, py "INTRODUCTION", py "first text");
    (2, py "General Information", py "second text") ].
Proof. split; vm_compute; reflexivity. Qed.

(** Records that repeat are all kept. *)
Example repeated_records_kept (U : ucd) (uuid4 : nat -> str) (pdf_path : str) :
  let page := join [10%N] (map py ["NOTE"; "same text"; "NOTE"; "same text"]%string) in
  map (fun r => (page_number r, title r, text r))
    (extract_structured_sections U uuid4 pdf_path pymupdf [page; page]) =
  [ (1, py "NOTE", py "same text"); (1, py "NOTE", py "same text");
    (2, py "NOTE", py "same text"); (2, py "NOTE", py "same text") ].
Proof. vm_compute. reflexivity. Qed.

(** ** Two runs on the same pages *)

Section Two_runs.

Variables (U : ucd) (pdf_path : str) (uuid4 uuid4' : nat -> str).

(** Two states of the loop over the lines that agree on all but the
    identifiers. *)
Definition same_but_ids (st st' : loop_state) : Prop :=
  map content (structured_data st) = map content (structured_data st') /\
  current_title st = current_title st' /\
  current_text_block st = current_text_block st'.

Lemma save_section_same n st st' :
  same_but_ids st st' ->
  same_but_ids (save_section U uuid4 pdf_path n st) (save_section U uuid4' pdf_path n st').
Proof.
  intros (Hd & Ht & Hb). unfold save_section. rewrite <- Hb.
  destruct (truthy _); [| now repeat split].
  repeat split; simpl; try assumption.
  rewrite !map_app, Hd. simpl. unfold content. simpl. now rewrite Ht, Hb.
Qed.

Lemma line_step_same n st st' line :
  same_but_ids st st' ->
  same_but_ids (line_step U uuid4 pdf_path n st line) (line_step U uuid4' pdf_path n st' line).
Proof.
  intros H. unfold line_step. destruct (is_title U line).
  - destruct (save_section_same n st st' H) as (Hd & _ & _). now repeat split.
  - destruct (negb (is_junk U line)); [| exact H].
    destruct H as (Hd & Ht & Hb). repeat split; simpl; try assumption.
    now rewrite Hb.
Qed.

Lemma page_lines_same n lines st st' :
  same_but_ids st st' ->
  same_but_ids (page_lines U uuid4 pdf_path n st lines) (page_lines U uuid4' pdf_path n st' lines).
Proof.
  unfold page_lines. revert st st'.
  induction lines as [| line lines IH]; intros st st' H; simpl.
  - now apply save_section_same.
  - apply IH. now apply line_step_same.
Qed.

Lemma pages_same (pages : list (nat * str)) (d d' : doc_state) :
  map content (doc_data d) = map content (doc_data d') ->
  map content (doc_data (fold_left (page_step U uuid4 pdf_path) pages d)) =
  map content (doc_data (fold_left (page_step U uuid4' pdf_path) pages d')).
Proof.
  revert d d'. induction pages as [| [n t] pages IH]; intros d d' H; simpl;
    [exact H |].
  apply IH. simpl.
  apply (page_lines_same n (split_on 10 t) (page_entry d) (page_entry d')).
  now repeat split.
Qed.

End Two_runs.

Lemma map_eq_Forall2 {A B : Type} (f : A -> B) (l l' : list A) :
  map f l = map f l' -> Forall2 (fun a a' => f a = f a') l l'.
Proof.
  revert l'. induction l as [| a l IH]; intros [| a' l'] H; simpl in H;
    try discriminate; constructor.
  - now injection H.
  - apply IH. now injection H.
Qed.

(** C10: the pages and the path being the same, two runs return lists of the
    same length whose records agree, position by position, on the page
    number, the title, the text and the source; the identifiers drawn
    ([uuid4], [uuid4']) may differ. *)
Theorem extract_same_but_ids (U : ucd) (pdf_path : str) (uuid4 uuid4' : nat -> str)
  (PDF_LIBRARY PDF_LIBRARY' : pdf_library) (pages : list str) :
  let out := extract_structured_sections U uuid4 pdf_path PDF_LIBRARY pages in
  let out' := extract_structured_sections U uuid4' pdf_path PDF_LIBRARY' pages in
  List.length out = List.length out' /\
  Forall2 (fun r r' => page_number r = page_number r' /\ title r = title r' /\
                       text r = text r' /\ source r = source r') out out'.
Proof.
  cbv zeta.
  assert (E : map content (extract_structured_sections U uuid4 pdf_path PDF_LIBRARY pages) =
              map content (extract_structured_sections U uuid4' pdf_path PDF_LIBRARY' pages)).
  { unfold extract_structured_sections, run_pages.
    destruct PDF_LIBRARY, PDF_LIBRARY'; now apply pages_same. }
  split.
  - rewrite <- (length_map content), E. apply length_map.
  - apply map_eq_Forall2 in E. eapply Forall2_impl; [| exact E].
    simpl. unfold content. intros r r' H. injection H. auto.
Qed.

(** ** What the patterns match *)

Section Regex_semantics.

Variable U : ucd.

(** [matches r s]: the string [s], as a whole, matches the pattern [r]. *)
Inductive matches : regex -> str -> Prop :=
| matches_eps : matches Eps []
| matches_sym cs c : in_charset U cs c = true -> matches (Sym cs) [c]
| matches_cat r1 r2 s1 s2 :
    matches r1 s1 -> matches r2 s2 -> matches (Cat r1 r2) (s1 ++ s2)
| matches_alt_l r1 r2 s : matches r1 s -> matches (Alt r1 r2) s
| matches_alt_r r1 r2 s : matches r2 s -> matches (Alt r1 r2) s
| matches_star_nil r : matches (Star r) []
| matches_star_more r s1 s2 :
    matches r s1 -> matches (Star r) s2 -> matches (Star r) (s1 ++ s2).

Lemma nullable_matches (r : regex) : nullable r = true <-> matches r [].
Proof.
  induction r as [| | cs | r1 IH1 r2 IH2 | r1 IH1 r2 IH2 | r IH]; simpl.
  - split; [discriminate | intros H; inversion H].
  - split; [constructor | reflexivity].
  - split; [discriminate | intros H; inversion H].
  - rewrite andb_true_iff, IH1, IH2. split.
    + intros [H1 H2]. exact (matches_cat _ _ [] [] H1 H2).
    + intros H. inversion H as [| | ? ? s1 s2 H1 H2 | | | |]; subst.
      match goal with E : _ ++ _ = [] |- _ => apply app_eq_nil in E as [-> ->] end.
      now split.
  - rewrite orb_true_iff, IH1, IH2. split.
    + intros [H | H]; [now apply matches_alt_l | now apply matches_alt_r].
    + intros H. inversion H; subst; [now left | now right].
  - split; [constructor | reflexivity].
Qed.

(** A non-empty match of a repetition starts with a non-empty match of its
    body. *)
Lemma matches_star_cons (r : regex) (c : N) (s : str) :
  matches (Star r) (c :: s) ->
  exists s1 s2, s = s1 ++ s2 /\ matches r (c :: s1) /\ matches (Star r) s2.
Proof.
  intros H. remember (Star r) as r' eqn:Er. remember (c :: s) as s' eqn:Es.
  revert s Es.
  induction H as [| | | | | | r0 s1 s2 H1 _ H2 IH2]; intros t Et;
    try discriminate.
  injection Er as ->. destruct s1 as [| c1 s1].
  - simpl in Et. now apply IH2.
  - simpl in Et. injection Et as -> <-. now exists s1, s2.
Qed.

Lemma deriv_matches (r : regex) (c : N) (s : str) :
  matches (deriv U c r) s <-> matches r (c :: s).
Proof.
  revert s.
  induction r as [| | cs | r1 IH1 r2 IH2 | r1 IH1 r2 IH2 | r IH]; intros s; simpl.
  - split; intros H; inversion H.
  - split; intros H; inversion H.
  - destruct (in_charset U cs c) eqn:E; split; intros H; inversion H; subst.
    + now constructor.
    + constructor.
    + congruence.
  - assert (Hleft : matches (Cat (deriv U c r1) r2) s ->
                    matches (Cat r1 r2) (c :: s)).
    { intros H. inversion H as [| | ? ? s1 s2 H1 H2 | | | |]; subst.
      apply IH1 in H1. exact (matches_cat _ _ (c :: s1) s2 H1 H2). }
    assert (Hback : matches (Cat r1 r2) (c :: s) ->
                    matches (Cat (deriv U c r1) r2) s \/
                    (matches r1 [] /\ matches (deriv U c r2) s)).
    { intros H. inversion H as [| | ? ? s1 s2 H1 H2 | | | |]; subst.
      match goal with E : _ ++ _ = _ :: _ |- _ => rename E into Es end.
      destruct s1 as [| c1 s1]; simpl in Es.
      - subst s2. right. split; [exact H1 | now apply IH2].
      - injection Es as -> <-. left. constructor; [now apply IH1 | exact H2]. }
    destruct (nullable r1) eqn:N1.
    + split.
      * intros H. inversion H; subst; [now apply Hleft |].
        apply nullable_matches in N1.
        apply (matches_cat _ _ [] (c :: s) N1). now apply IH2.
      * intros H. destruct (Hback H) as [H' | [_ H']];
          [now apply matches_alt_l | now apply matches_alt_r].
    + split; [exact Hleft |].
      intros H. destruct (Hback H) as [H' | [H' _]]; [exact H' |].
      apply nullable_matches in H'. congruence.
  - split.
    + intros H. inversion H; subst;
        [apply matches_alt_l; now apply IH1 | apply matches_alt_r; now apply IH2].
    + intros H. inversion H; subst;
        [apply matches_alt_l; now apply IH1 | apply matches_alt_r; now apply IH2].
  - split.
    + intros H. inversion H as [| | ? ? s1 s2 H1 H2 | | | |]; subst.
      apply IH in H1. exact (matches_star_more _ (c :: s1) s2 H1 H2).
    + intros H. apply matches_star_cons in H as (s1 & s2 & -> & H1 & H2).
      constructor; [now apply IH | exact H2].
Qed.

Lemma fullmatch_matches (r : regex) (s : str) :
  fullmatch U r s = true <-> matches r s.
Proof.
  revert r. induction s as [| c s IH]; intros r; simpl.
  - apply nullable_matches.
  - rewrite IH. apply deriv_matches.
Qed.

(** [re.match]: a prefix matches. *)
Lemma re_match_matches (r : regex) (s : str) :
  re_match U r s = true <-> exists p q, s = p ++ q /\ matches r p.
Proof.
  revert r. induction s as [| c s IH]; intros r; simpl.
  - rewrite orb_false_r, nullable_matches. split.
    + intros H. now exists [], [].
    + intros (p & q & E & H). symmetry in E.
      apply app_eq_nil in E as [-> _]. exact H.
  - rewrite orb_true_iff, nullable_matches, IH. split.
    + intros [H | (p & q & -> & H)].
      * now exists [], (c :: s).
      * exists (c :: p), q. split; [reflexivity | now apply deriv_matches].
    + intros (p & q & E & H). destruct p as [| c' p]; [now left |].
      simpl in E. injection E as <- ->. right.
      exists p, q. split; [reflexivity | now apply deriv_matches].
Qed.

End Regex_semantics.

Lemma or_iff_both (A A' B B' : Prop) :
  (A <-> A') -> (B <-> B') -> (A \/ B <-> A' \/ B').
Proof. tauto. Qed.

(** Patterns built from sets of characters and words, in plain terms. *)
Section Pattern_shapes.

Variable U : ucd.

Abbreviation matches := (matches U).

Lemma matches_cat_iff (r1 r2 : regex) (s : str) :
  matches (Cat r1 r2) s <->
  exists s1 s2, s = s1 ++ s2 /\ matches r1 s1 /\ matches r2 s2.
Proof.
  split.
  - intros H. inversion H as [| | ? ? s1 s2 H1 H2 | | | |]; subst.
    now exists s1, s2.
  - intros (s1 & s2 & -> & H1 & H2). now constructor.
Qed.

Lemma matches_alt_iff (r1 r2 : regex) (s : str) :
  matches (Alt r1 r2) s <-> matches r1 s \/ matches r2 s.
Proof.
  split.
  - intros H. inversion H; subst; [now left | now right].
  - intros [H | H]; [now apply matches_alt_l | now apply matches_alt_r].
Qed.

Lemma matches_sym_iff (cs : charset) (s : str) :
  matches (Sym cs) s <-> exists c, s = [c] /\ in_charset U cs c = true.
Proof.
  split.
  - intros H. inversion H; subst. eauto.
  - intros (c & -> & H). now constructor.
Qed.

Lemma matches_lit_iff (w s : str) : matches (Lit w) s <-> s = w.
Proof.
  revert s. induction w as [| c w IH]; intros s; simpl.
  - split; [intros H; now inversion H | intros ->; constructor].
  - rewrite matches_cat_iff. split.
    + intros (s1 & s2 & -> & H1 & H2). apply IH in H2 as ->.
      apply matches_sym_iff in H1 as (c' & -> & Hc). simpl in Hc.
      apply N.eqb_eq in Hc as ->. reflexivity.
    + intros ->. exists [c], w. split; [reflexivity |]. split.
      * constructor. simpl. apply N.eqb_refl.
      * now apply IH.
Qed.

Lemma matches_star_sym_iff (cs : charset) (s : str) :
  matches (Star (Sym cs)) s <-> forallb (in_charset U cs) s = true.
Proof.
  split.
  - intros H. remember (Star (Sym cs)) as r eqn:Er.
    induction H as [| | | | | | r0 s1 s2 H1 _ _ IH2]; try discriminate;
      [reflexivity |].
    injection Er as ->. rewrite forallb_app, IH2 by reflexivity.
    apply matches_sym_iff in H1 as (c & -> & Hc). simpl. now rewrite Hc.
  - induction s as [| c s IH]; simpl; [constructor |].
    intros H. apply andb_true_iff in H as [Hc Hs].
    apply (matches_star_more U (Sym cs) [c] s); [now constructor | now apply IH].
Qed.

Lemma matches_plus_sym_iff (cs : charset) (s : str) :
  matches (Plus (Sym cs)) s <-> s <> [] /\ forallb (in_charset U cs) s = true.
Proof.
  unfold Plus. rewrite matches_cat_iff. split.
  - intros (s1 & s2 & -> & H1 & H2).
    apply matches_sym_iff in H1 as (c & -> & Hc).
    apply matches_star_sym_iff in H2. split; [discriminate |].
    simpl. now rewrite Hc.
  - intros [Hne H]. destruct s as [| c s]; [congruence |].
    simpl in H. apply andb_true_iff in H as [Hc Hs].
    exists [c], s. split; [reflexivity |]. split.
    + now constructor.
    + now apply matches_star_sym_iff.
Qed.

(** A run of white space, possibly empty, and a run of one digit or more. *)
Definition spaces (w : str) : Prop := forallb (isspace_c U) w = true.
Definition digits (w : str) : Prop := w <> [] /\ forallb (isdecimal_c U) w = true.

(** The lines that [page_pattern] matches as a whole: [page], white space or
    none, digits; or digits, white space or none, [of], white space or none,
    digits. *)
Definition page_number_line (x : str) : Prop :=
  (exists ws ds, x = py "page" ++ ws ++ ds /\ spaces ws /\ digits ds) \/
  (exists ds1 ws1 ws2 ds2,
      x = ds1 ++ ws1 ++ py "of" ++ ws2 ++ ds2 /\
      digits ds1 /\ spaces ws1 /\ spaces ws2 /\ digits ds2).

Lemma page_pattern_matches (x : str) :
  matches page_pattern x <-> page_number_line x.
Proof.
  unfold page_pattern, page_number_line. rewrite matches_alt_iff.
  apply or_iff_both.
  - rewrite matches_cat_iff. split.
    + intros (s1 & s2 & -> & H1 & H2). apply matches_lit_iff in H1 as ->.
      apply matches_cat_iff in H2 as (ws & ds & -> & Hws & Hds).
      apply matches_star_sym_iff in Hws. apply matches_plus_sym_iff in Hds.
      now exists ws, ds.
    + intros (ws & ds & -> & Hws & Hds). exists (py "page"), (ws ++ ds).
      split; [reflexivity |]. split; [now apply matches_lit_iff |].
      apply matches_cat_iff. exists ws, ds. split; [reflexivity |]. split.
      * now apply matches_star_sym_iff.
      * now apply matches_plus_sym_iff.
  - rewrite matches_cat_iff. split.
    + intros (ds1 & s2 & -> & Hds1 & H2).
      apply matches_cat_iff in H2 as (ws1 & s3 & -> & Hws1 & H3).
      apply matches_cat_iff in H3 as (w & s4 & -> & Hw & H4).
      apply matches_cat_iff in H4 as (ws2 & ds2 & -> & Hws2 & Hds2).
      apply matches_lit_iff in Hw as ->.
      apply matches_plus_sym_iff in Hds1, Hds2.
      apply matches_star_sym_iff in Hws1, Hws2.
      now exists ds1, ws1, ws2, ds2.
    + intros (ds1 & ws1 & ws2 & ds2 & -> & Hds1 & Hws1 & Hws2 & Hds2).
      exists ds1, (ws1 ++ py "of" ++ ws2 ++ ds2).
      split; [reflexivity |]. split; [now apply matches_plus_sym_iff |].
      apply matches_cat_iff. exists ws1, (py "of" ++ ws2 ++ ds2).
      split; [reflexivity |]. split; [now apply matches_star_sym_iff |].
      apply matches_cat_iff. exists (py "of"), (ws2 ++ ds2).
      split; [reflexivity |]. split; [now apply matches_lit_iff |].
      apply matches_cat_iff. exists ws2, ds2.
      split; [reflexivity |]. split.
      * now apply matches_star_sym_iff.
      * now apply matches_plus_sym_iff.
Qed.

End Pattern_shapes.

(** ** The junk predicate *)

Section Junk.

Variable U : ucd.

Lemma startswith_prefix (p s : str) :
  startswith s p = true <-> exists post, s = p ++ post.
Proof.
  revert s. induction p as [| a p IH]; intros s; simpl.
  - split; [intros _; now exists s | reflexivity].
  - destruct s as [| b s].
    + split; [discriminate | intros (post & E); discriminate E].
    + rewrite andb_true_iff, N.eqb_eq, IH. split.
      * intros (-> & post & ->). now exists post.
      * intros (post & E). injection E as -> ->. split; [reflexivity | now exists post].
Qed.

Lemma contains_substring (s p : str) :
  contains s p = true <-> exists pre post, s = pre ++ p ++ post.
Proof.
  induction s as [| c s IH]; simpl; rewrite orb_true_iff, startswith_prefix.
  - split.
    + intros [(post & E) | H]; [now exists [], post | discriminate H].
    + intros (pre & post & E). left. symmetry in E.
      apply app_eq_nil in E as [-> E]. now exists post.
  - rewrite IH. split.
    + intros [(post & E) | (pre & post & ->)].
      * now exists [], post.
      * now exists (c :: pre), post.
    + intros (pre & post & E). destruct pre as [| c' pre]; simpl in E.
      * left. now exists post.
      * injection E as <- ->. right. now exists pre, post.
Qed.

Lemma lower_c_nonempty (before : str) (c : N) (after : str) :
  lower_c U before c after <> [].
Proof.
  unfold lower_c. destruct (is_ascii c) eqn:E; [discriminate |].
  now apply ext_lower_nonempty.
Qed.

Lemma ascii_lower_nospace (c : N) :
  is_ascii c = true -> ascii_isspace c = false ->
  isspace_c U (ascii_lower c) = false.
Proof.
  unfold isspace_c, table, is_ascii, ascii_lower, ascii_isupper, ascii_isspace,
    in_range.
  intros Ha Hs.
  destruct (N.leb_spec 65 c), (N.leb_spec c 90); simpl;
    try (rewrite Ha; exact Hs).
  destruct (N.ltb_spec (c + 32) 128); [| lia].
  destruct (N.leb_spec 9 (c + 32)), (N.leb_spec (c + 32) 13),
    (N.leb_spec 28 (c + 32)), (N.leb_spec (c + 32) 32); simpl;
    try reflexivity; lia.
Qed.

Lemma lower_c_nospace (before : str) (c : N) (after : str) :
  isspace_c U c = false ->
  Forall (fun d => isspace_c U d = false) (lower_c U before c after).
Proof.
  intros Hc. unfold lower_c. destruct (is_ascii c) eqn:E.
  - constructor; [| constructor]. apply ascii_lower_nospace; [exact E |].
    unfold isspace_c, table in Hc. now rewrite E in Hc.
  - apply Forall_forall. intros d Hd.
    unfold isspace_c, table in Hc. rewrite E in Hc.
    exact (ext_lower_nospace U before c after d E Hc Hd).
Qed.

Lemma lower_nil_iff (s : str) : lower U s = [] <-> s = [].
Proof.
  unfold lower. destruct s as [| c s]; simpl; [tauto |].
  split; [| discriminate]. intros H. apply app_eq_nil in H as [H _].
  now apply lower_c_nonempty in H.
Qed.

(** The lower-case form of a string that ends with a character that is not
    white space ends with such a character. *)
Lemma lower_from_last (s before : str) :
  s <> [] -> isspace_c U (last s 0%N) = false ->
  exists t d, lower_from U before s = t ++ [d] /\ isspace_c U d = false.
Proof.
  revert before. induction s as [| c s IH]; intros before Hne Hlast;
    [congruence |].
  destruct s as [| c' s].
  - simpl in *. rewrite app_nil_r.
    pose proof (lower_c_nonempty before c []) as Hn.
    pose proof (lower_c_nospace before c [] Hlast) as Hs.
    destruct (exists_last Hn) as (t & d & E). rewrite E in *.
    exists t, d. split; [reflexivity |].
    apply Forall_app in Hs as [_ Hs]. now inversion Hs.
  - destruct (IH (before ++ [c])) as (t & d & E & Hd);
      [discriminate | exact Hlast |].
    exists (lower_c U before c (c' :: s) ++ t), d.
    split; [| exact Hd].
    change (lower_from U before (c :: c' :: s))
      with (lower_c U before c (c' :: s) ++ lower_from U (before ++ [c]) (c' :: s)).
    now rewrite E, app_assoc.
Qed.

Lemma lstrip_head (s : str) (c : N) (rest : str) :
  lstrip U s = c :: rest -> isspace_c U c = false.
Proof.
  induction s as [| a s IH]; simpl; [discriminate |].
  destruct (isspace_c U a) eqn:E; [exact IH |].
  intros H. injection H as <- _. exact E.
Qed.

Lemma strip_last (s : str) :
  strip U s <> [] -> isspace_c U (last (strip U s) 0%N) = false.
Proof.
  unfold strip, rstrip.
  destruct (lstrip U (rev (lstrip U s))) as [| c rest] eqn:E; [simpl; congruence |].
  intros _. simpl. rewrite last_last. exact (lstrip_head _ _ _ E).
Qed.

(** On the lower-case form of a trimmed line, [$] can only hold at the end:
    the line does not end with a line feed. *)
Lemma re_search_anchored_stripped (r : regex) (s : str) :
  re_search_anchored U r (lower U (strip U s)) =
  fullmatch U r (lower U (strip U s)).
Proof.
  unfold re_search_anchored.
  destruct (strip U s) as [| c x] eqn:E; [simpl; apply orb_false_r |].
  destruct (lower_from_last (c :: x) []) as (t & d & El & Hd).
  - discriminate.
  - rewrite <- E. apply strip_last. rewrite E. discriminate.
  - unfold lower. rewrite El, rev_app_distr. simpl.
    destruct (N.eq_dec d 10) as [-> | Hn]; [discriminate Hd |].
    destruct d as [| p]; [apply orb_false_r |].
    do 4 (destruct p as [p | p |]; try apply orb_false_r).
    congruence.
Qed.

Lemma is_junk_cases (line : str) :
  is_junk U line =
  negb (truthy (lower U (strip U line))) ||
  existsb (fun keyword => contains (lower U (strip U line)) keyword) junk_keywords ||
  re_search_anchored U page_pattern (lower U (strip U line)).
Proof.
  unfold is_junk.
  destruct (negb (truthy _)); [reflexivity |].
  destruct (existsb _ junk_keywords); [reflexivity |].
  now destruct (re_search_anchored U page_pattern _).
Qed.

End Junk.

(** C6 (as the code has it): a line is junk exactly when its trimmed form is
    empty, or the lower-case form of its trimmed form contains one of the
    keywords of the denylist, or that form is, as a whole, a page-number
    line: [page], any run of white space (none included), digits; or digits,
    any run of white space, [of], any run of white space, digits. *)
Theorem is_junk_iff (U : ucd) (line : str) :
  is_junk U line = true <->
  strip U line = [] \/
  (exists keyword pre post,
      In keyword junk_keywords /\
      lower U (strip U line) = pre ++ keyword ++ post) \/
  page_number_line U (lower U (strip U line)).
Proof.
  rewrite is_junk_cases, !orb_true_iff, re_search_anchored_stripped,
    fullmatch_matches, page_pattern_matches, negb_true_iff, existsb_exists.
  rewrite or_assoc. apply or_iff_both; [| apply or_iff_both; [| reflexivity]].
  - rewrite <- (lower_nil_iff U). destruct (lower U (strip U line)); simpl;
      split; congruence.
  - split.
    + intros (keyword & Hin & Hc). apply contains_substring in Hc as (pre & post & E).
      now exists keyword, pre, post.
    + intros (keyword & pre & post & Hin & E). exists keyword.
      split; [exact Hin |]. apply contains_substring. now exists pre, post.
Qed.

(** The page-number lines as the description has them, with exactly one
    space where the pattern of the code allows any run of white space:
    ["page <digits>"] or ["<digits> of <digits>"]. *)
Definition page_pattern_as_described : regex :=
  Alt (Cat (Lit (py "page ")) (Plus (Sym Digit)))
      (Cat (Plus (Sym Digit)) (Cat (Lit (py " of ")) (Plus (Sym Digit)))).

(** The junk predicate as the description has it. *)
Definition is_junk_as_described (U : ucd) (line : str) : bool :=
  let stripped_line := lower U (strip U line) in
  negb (truthy (strip U line)) ||
  existsb (fun keyword => contains stripped_line keyword) junk_keywords ||
  fullmatch U page_pattern_as_described stripped_line.

(** ["page3"] is junk for the code, and is neither empty, nor a line with a
    keyword, nor of the form ["page <digits>"] or ["<digits> of <digits>"];
    so are ["4of10"] and ["Page   12"]. *)
Lemma is_junk_without_space :
  (forall U : ucd,
      map (is_junk U) (map py ["page3"; "4of10"; "Page   12"]%string) =
      [true; true; true]) /\
  (forall U : ucd,
      map (is_junk_as_described U) (map py ["page3"; "4of10"; "Page   12"]%string) =
      [false; false; false]).
Proof. split; intros U; vm_compute; reflexivity. Qed.

(** ** Further examples *)

Example title_examples (U : ucd) :
  map (is_title U)
    (map py ["1. Introduction"; "A. Overview"; "(a) Scope"; "(iv) Exceptions";
             "ALL CAPS HEADER"; "This Is A Title Case Heading";
             "ONE TWO THREE FOUR FIVE SIX SEVEN EIGHT"; ""; "Page 1"]%string) =
  [true; true; true; true; true; true; false; false; true].
Proof. vm_compute. reflexivity. Qed.

(** The bullet is beyond Basic Latin: with tables in which it is a symbol. *)
Example title_bullet : is_title basic_latin (8226%N :: py " Summary") = true.
Proof. vm_compute. reflexivity. Qed.

Example junk_examples (U : ucd) :
  map (is_junk U)
    (map py ["GSTIN 27AAACB"; "Call our Toll-Free number"; "page 3"; "Page 3";
             "4 of 10"; ""; "   "; "Total income was 500."]%string) =
  [true; true; true; true; true; true; true; false].
Proof. vm_compute. reflexivity. Qed.

(** A line of five thousand characters is classified like any other. *)
Example long_line_classified (U : ucd) :
  is_title U (repeat (ch "a") 5000) = false /\
  is_junk U (repeat (ch "a") 5000) = false.
Proof. split; vm_compute; reflexivity. Qed.

(** A page of junk and blank lines has no record; content before any title
    goes under the default title. *)
Example page_examples (U : ucd) (uuid4 : nat -> str) (pdf_path : str) :
  page_records U uuid4 pdf_path 0 0
    (join [10%N] (map py ["3 of 4"; "   "; "www.example.com"; ""]%string)) = [] /\
  map (fun r => (title r, text r))
    (page_records U uuid4 pdf_path 0 0 (join [10%N] (map py ["some text"; "more"]%string))) =
  [(py "General Information", py "some text more")].
Proof. split; vm_compute; reflexivity. Qed.

(** * Further properties of the classifier and of the accumulator *)

(** ** Trimming *)

Section Trim.

Variable U : ucd.

Lemma lstrip_spaces_app (a x : str) :
  spaces U a -> lstrip U (a ++ x) = lstrip U x.
Proof.
  unfold spaces. induction a as [| c a IH]; simpl; [reflexivity |].
  intros H. apply andb_true_iff in H as [Hc Ha]. rewrite Hc. now apply IH.
Qed.

Lemma spaces_app (a b : str) : spaces U a -> spaces U b -> spaces U (a ++ b).
Proof. unfold spaces. intros Ha Hb. now rewrite forallb_app, Ha, Hb. Qed.

Lemma spaces_rev (a : str) : spaces U a -> spaces U (rev a).
Proof.
  unfold spaces. induction a as [| c a IH]; simpl; [reflexivity |].
  intros H. apply andb_true_iff in H as [Hc Ha].
  rewrite forallb_app, IH by exact Ha. simpl. now rewrite Hc.
Qed.

Lemma lstrip_split (s : str) :
  exists a, spaces U a /\ s = a ++ lstrip U s.
Proof.
  induction s as [| c s (a & Ha & E)]; simpl.
  - now exists [].
  - destruct (isspace_c U c) eqn:Hc.
    + exists (c :: a). split.
      * unfold spaces in *. simpl. now rewrite Hc.
      * simpl. now rewrite <- E.
    + now exists [].
Qed.

Lemma rstrip_split (s : str) :
  exists b, spaces U b /\ s = rstrip U s ++ b.
Proof.
  destruct (lstrip_split (rev s)) as (a & Ha & E).
  exists (rev a). split; [now apply spaces_rev |].
  unfold rstrip. rewrite <- rev_app_distr, <- E. now rewrite rev_involutive.
Qed.

Lemma lstrip_fixed (s : str) : lstrip U (lstrip U s) = lstrip U s.
Proof.
  induction s as [| c s IH]; simpl; [reflexivity |].
  destruct (isspace_c U c) eqn:Hc; [exact IH |]. simpl. now rewrite Hc.
Qed.

Lemma lstrip_starts (c : N) (s : str) :
  isspace_c U c = false -> lstrip U (c :: s) = c :: s.
Proof. intros H. simpl. now rewrite H. Qed.

(** A trimmed string: trimming it at either end leaves it as it is. *)
Definition trimmed (m : str) : Prop := lstrip U m = m /\ rstrip U m = m.

Lemma strip_trimmed (s : str) : trimmed (strip U s).
Proof.
  split.
  - unfold strip. set (x := lstrip U s).
    assert (Hx : lstrip U x = x) by apply lstrip_fixed.
    destruct (rstrip_split x) as (b & Hb & E).
    destruct (rstrip U x) as [| c r] eqn:Er; [reflexivity |].
    apply lstrip_starts. rewrite E in Hx. simpl in Hx.
    destruct (isspace_c U c) eqn:Hc; [| reflexivity].
    exfalso. destruct (lstrip_split (r ++ b)) as (a & _ & Ea).
    rewrite Hx in Ea. apply (f_equal (@List.length N)) in Ea.
    rewrite (length_app a) in Ea. simpl in Ea. lia.
  - unfold strip, rstrip. rewrite rev_involutive. now rewrite lstrip_fixed.
Qed.

Lemma strip_surrounded (a m b : str) :
  trimmed m -> spaces U a -> spaces U b -> strip U (a ++ m ++ b) = m.
Proof.
  intros [Hl Hr] Ha Hb. unfold strip. rewrite lstrip_spaces_app by exact Ha.
  destruct m as [| c m].
  - simpl. rewrite <- (app_nil_r b), lstrip_spaces_app by exact Hb. reflexivity.
  - assert (Hc : isspace_c U c = false) by exact (lstrip_head U _ _ _ Hl).
    change ((c :: m) ++ b) with (c :: (m ++ b)). rewrite lstrip_starts by exact Hc.
    unfold rstrip. change (c :: m ++ b) with ((c :: m) ++ b).
    rewrite rev_app_distr, lstrip_spaces_app by now apply spaces_rev.
    exact Hr.
Qed.

Lemma strip_split (s : str) :
  exists a b, spaces U a /\ spaces U b /\ s = a ++ strip U s ++ b.
Proof.
  destruct (lstrip_split s) as (a & Ha & Ea).
  destruct (rstrip_split (lstrip U s)) as (b & Hb & Eb).
  exists a, b. split; [exact Ha |]. split; [exact Hb |].
  unfold strip. now rewrite <- Eb.
Qed.

Lemma strip_padded (a s b : str) :
  spaces U a -> spaces U b -> strip U (a ++ s ++ b) = strip U s.
Proof.
  intros Ha Hb. destruct (strip_split s) as (a' & b' & Ha' & Hb' & E).
  rewrite E at 1.
  replace (a ++ (a' ++ strip U s ++ b') ++ b)
    with ((a ++ a') ++ strip U s ++ (b' ++ b))
    by now rewrite <- !app_assoc.
  apply strip_surrounded; [apply strip_trimmed | |]; now apply spaces_app.
Qed.

Lemma strip_fixed (s : str) : strip U (strip U s) = strip U s.
Proof.
  rewrite <- (app_nil_r (strip U s)) at 1.
  apply (strip_surrounded [] (strip U s) []); [apply strip_trimmed | |]; reflexivity.
Qed.

End Trim.

(** X1: white space around a line changes nothing: the padded line is a
    title, is junk, and moves the accumulator exactly as the line itself. *)
Theorem padding_is_ignored (U : ucd) (uuid4 : nat -> str) (pdf_path : str)
  (page_num : nat) (st : loop_state) (a line b : str) :
  spaces U a -> spaces U b ->
  is_title U (a ++ line ++ b) = is_title U line /\
  is_junk U (a ++ line ++ b) = is_junk U line /\
  line_step U uuid4 pdf_path page_num st (a ++ line ++ b) =
  line_step U uuid4 pdf_path page_num st line.
Proof.
  intros Ha Hb.
  assert (Ht : is_title U (a ++ line ++ b) = is_title U line)
    by (unfold is_title; now rewrite strip_padded).
  assert (Hj : is_junk U (a ++ line ++ b) = is_junk U line)
    by (unfold is_junk; now rewrite strip_padded).
  split; [exact Ht |]. split; [exact Hj |].
  unfold line_step. now rewrite Ht, Hj, strip_padded.
Qed.

Lemma padding_is_ignored_witness :
  is_title basic_latin (py "   " ++ py "1. Risks" ++ [ch "009"]) =
  is_title basic_latin (py "1. Risks").
Proof.
  apply (padding_is_ignored basic_latin (fun _ => []) [] 0 (fresh 0)
           (py "   ") (py "1. Risks") [ch "009"]); reflexivity.
Defined.

(** ** The words of a text *)

Section Words.

Variable U : ucd.

Lemma split_from_spaces (ws cur : str) :
  spaces U ws -> split_from U cur ws = split_from U cur [].
Proof.
  unfold spaces. revert cur. induction ws as [| c ws IH]; intros cur H;
    [reflexivity |].
  simpl in H. apply andb_true_iff in H as [Hc Hws]. simpl. rewrite Hc.
  rewrite (IH [] Hws). simpl. now destruct (truthy cur).
Qed.

Lemma split_from_app_spaces (x ws cur : str) :
  spaces U ws -> split_from U cur (x ++ ws) = split_from U cur x.
Proof.
  intros Hws. revert cur. induction x as [| c x IH]; intros cur; simpl.
  - now apply split_from_spaces.
  - destruct (isspace_c U c); [| apply IH]. now rewrite IH.
Qed.

Lemma split_spaces_app (ws x : str) :
  spaces U ws -> split U (ws ++ x) = split U x.
Proof.
  unfold spaces, split. induction ws as [| c ws IH]; simpl; [reflexivity |].
  intros H. apply andb_true_iff in H as [Hc Hws]. rewrite Hc. now apply IH.
Qed.

Lemma split_from_app_space (a b cur : str) :
  split_from U cur (a ++ ch " " :: b) = split_from U cur a ++ split U b.
Proof.
  unfold split. revert cur. induction a as [| c a IH]; intros cur; simpl.
  - change (isspace_c U (ch " ")) with true. cbv iota. now destruct (truthy cur).
  - destruct (isspace_c U c); [| apply IH].
    destruct (truthy cur); simpl; now rewrite IH.
Qed.

Lemma split_strip (s : str) : split U (strip U s) = split U s.
Proof.
  destruct (strip_split U s) as (a & b & Ha & Hb & E). rewrite E at 2.
  rewrite split_spaces_app by exact Ha. unfold split.
  now rewrite split_from_app_spaces.
Qed.

Lemma split_blank (b : str) : truthy (strip U b) = false -> split U b = [].
Proof.
  intros H. rewrite <- split_strip. now destruct (strip U b).
Qed.

Lemma split_normalize (b : str) : split U (normalize U b) = split U b.
Proof. unfold normalize. apply split_join. apply split_words. Qed.

Lemma split_nonblank (s : str) : truthy (strip U s) = true -> split U s <> [].
Proof.
  intros H. apply split_from_nonempty. left. now apply strip_nonempty.
Qed.

End Words.

(** ** Content lines and the records of a page *)

(** A content line: neither a title nor junk. *)
Definition is_content (U : ucd) (line : str) : bool :=
  negb (is_title U line) && negb (is_junk U line).

Section Page_content.

Variables (U : ucd) (uuid4 : nat -> str) (pdf_path : str) (page_num : nat).

Abbreviation step := (line_step U uuid4 pdf_path page_num).
Abbreviation save := (save_section U uuid4 pdf_path page_num).

(** The words saved so far, followed by those of the block being built. *)
Definition words_of (st : loop_state) : list str :=
  flat_map (fun r => split U (text r)) (structured_data st) ++
  split U (current_text_block st).

Lemma save_words (st : loop_state) :
  flat_map (fun r => split U (text r)) (structured_data (save st)) = words_of st.
Proof.
  unfold save_section, words_of. destruct (truthy _) eqn:E.
  - simpl. rewrite flat_map_app. simpl. now rewrite app_nil_r, split_normalize.
  - now rewrite (split_blank U _ E), app_nil_r.
Qed.

Lemma is_junk_false_strip (line : str) :
  is_junk U line = false -> truthy (strip U line) = true.
Proof.
  unfold is_junk. destruct (strip U line); [simpl; discriminate | reflexivity].
Qed.

Lemma step_words (st : loop_state) (line : str) :
  words_of (step st line) =
  words_of st ++ (if is_content U line then split U line else []).
Proof.
  unfold line_step, is_content. destruct (is_title U line); simpl.
  - unfold words_of at 1. simpl. now rewrite save_words, !app_nil_r.
  - destruct (is_junk U line); simpl; [now rewrite app_nil_r |].
    unfold words_of. simpl. unfold split at 2.
    change (py " " ++ strip U line) with (ch " " :: strip U line).
    rewrite split_from_app_space, split_strip. now rewrite app_assoc.
Qed.

Lemma fold_words (lines : list str) (st : loop_state) :
  words_of (fold_left step lines st) =
  words_of st ++ flat_map (split U) (filter (is_content U) lines).
Proof.
  revert st. induction lines as [| line lines IH]; intros st; simpl.
  - now rewrite app_nil_r.
  - rewrite IH, step_words. destruct (is_content U line); simpl.
    + now rewrite <- app_assoc.
    + now rewrite app_nil_r.
Qed.

(** What is pending: one record if the block is not blank. *)
Definition pending (st : loop_state) : nat :=
  if truthy (strip U (current_text_block st)) then 1 else 0.

Lemma save_count (st : loop_state) :
  List.length (structured_data (save st)) =
  List.length (structured_data st) + pending st.
Proof.
  unfold save_section, pending. destruct (truthy _); simpl.
  - now rewrite length_app.
  - lia.
Qed.

Lemma step_count_content (st : loop_state) (line : str) :
  List.length (structured_data (step st line)) + pending (step st line) <=
  List.length (structured_data st) + pending st +
  (if is_content U line then 1 else 0).
Proof.
  unfold line_step, is_content. destruct (is_title U line); simpl.
  - rewrite save_count.
    change (pending {| structured_data := structured_data (save st);
                       uuid_calls := uuid_calls (save st);
                       current_title := strip U line;
                       current_text_block := [] |}) with 0.
    lia.
  - destruct (is_junk U line); simpl; [lia |].
    unfold pending. simpl. destruct (truthy _), (truthy _); lia.
Qed.

Lemma step_count_title (st : loop_state) (line : str) :
  List.length (structured_data (step st line)) <=
  List.length (structured_data st) + (if is_title U line then 1 else 0).
Proof.
  unfold line_step. destruct (is_title U line); simpl.
  - rewrite save_count. unfold pending. destruct (truthy _); lia.
  - destruct (negb (is_junk U line)); simpl; lia.
Qed.

Lemma fold_count_content (lines : list str) (st : loop_state) :
  List.length (structured_data (fold_left step lines st)) +
  pending (fold_left step lines st) <=
  List.length (structured_data st) + pending st +
  List.length (filter (is_content U) lines).
Proof.
  revert st. induction lines as [| line lines IH]; intros st; simpl; [lia |].
  specialize (IH (step st line)). pose proof (step_count_content st line).
  destruct (is_content U line); simpl; lia.
Qed.

Lemma fold_count_title (lines : list str) (st : loop_state) :
  List.length (structured_data (fold_left step lines st)) <=
  List.length (structured_data st) + List.length (filter (is_title U) lines).
Proof.
  revert st. induction lines as [| line lines IH]; intros st; simpl; [lia |].
  specialize (IH (step st line)). pose proof (step_count_title st line).
  destruct (is_title U line); simpl; lia.
Qed.

Lemma step_junk (st : loop_state) (line : str) :
  is_title U line = false -> is_junk U line = true -> step st line = st.
Proof. intros Ht Hj. unfold line_step. now rewrite Ht, Hj. Qed.

Lemma fold_without_junk (lines : list str) (st : loop_state) :
  fold_left step (filter (fun l => is_title U l || negb (is_junk U l)) lines) st =
  fold_left step lines st.
Proof.
  revert st. induction lines as [| line lines IH]; intros st; simpl;
    [reflexivity |].
  destruct (is_title U line) eqn:Ht; simpl; [apply IH |].
  destruct (is_junk U line) eqn:Hj; simpl; [| apply IH].
  now rewrite (step_junk st line Ht Hj).
Qed.

End Page_content.

Lemma page_keeps_content_words_aux (U : ucd) (uuid4 : nat -> str) (pdf_path : str)
  (calls page_num : nat) (page_text : str) :
  flat_map (fun r => split U (text r))
    (page_records U uuid4 pdf_path calls page_num page_text) =
  flat_map (split U) (filter (is_content U) (split_on 10 page_text)).
Proof.
  unfold page_records, page_lines. rewrite save_words, fold_words. reflexivity.
Qed.

Lemma pages_records_words (U : ucd) (uuid4 : nat -> str) (pdf_path : str)
  (pages : list (nat * str)) (calls : nat) :
  flat_map (fun r => split U (text r)) (pages_records U uuid4 pdf_path calls pages) =
  flat_map (fun p => flat_map (split U) (filter (is_content U) (split_on 10 (snd p))))
    pages.
Proof.
  revert calls. induction pages as [| [n t] pages IH]; intros calls; simpl;
    [reflexivity |].
  now rewrite flat_map_app, page_keeps_content_words_aux, IH.
Qed.

Lemma flat_map_enumerate {A B : Type} (g : A -> list B) (l : list A) (k : nat) :
  flat_map (fun p => g (snd p)) (combine (seq k (List.length l)) l) = flat_map g l.
Proof.
  revert k. induction l as [| x l IH]; intros k; simpl; [reflexivity |].
  now rewrite IH.
Qed.

Lemma extract_pages_records (U : ucd) (uuid4 : nat -> str) (pdf_path : str)
  (PDF_LIBRARY : pdf_library) (pages : list str) :
  extract_structured_sections U uuid4 pdf_path PDF_LIBRARY pages =
  pages_records U uuid4 pdf_path 0 (enumerate pages).
Proof.
  unfold extract_structured_sections, run_pages.
  destruct PDF_LIBRARY; now rewrite fold_page_step.
Qed.

(** X2: no word of a content line is lost, repeated or moved: the words of
    the texts of the records returned for a document, in order, are the
    words of the content lines of its pages, in order. *)
Theorem extract_keeps_content_words (U : ucd) (uuid4 : nat -> str) (pdf_path : str)
  (PDF_LIBRARY : pdf_library) (pages : list str) :
  flat_map (fun r => split U (text r))
    (extract_structured_sections U uuid4 pdf_path PDF_LIBRARY pages) =
  flat_map
    (fun page_text =>
       flat_map (split U) (filter (is_content U) (split_on 10 page_text)))
    pages.
Proof.
  rewrite extract_pages_records, pages_records_words. unfold enumerate.
  apply (flat_map_enumerate
           (fun page_text =>
              flat_map (split U) (filter (is_content U) (split_on 10 page_text)))).
Qed.

(** X3: a page has no record exactly when none of its lines is a content
    line. *)
Theorem page_without_records_iff (U : ucd) (uuid4 : nat -> str) (pdf_path : str)
  (calls page_num : nat) (page_text : str) :
  page_records U uuid4 pdf_path calls page_num page_text = [] <->
  (forall line, In line (split_on 10 page_text) -> is_content U line = false).
Proof.
  split.
  - intros H line Hin. destruct (is_content U line) eqn:Hc; [| reflexivity].
    exfalso.
    assert (W : flat_map (split U) (filter (is_content U) (split_on 10 page_text)) = []).
    { rewrite <- (page_keeps_content_words_aux U uuid4 pdf_path calls page_num).
      now rewrite H. }
    assert (Hf : In line (filter (is_content U) (split_on 10 page_text)))
      by (apply filter_In; now split).
    assert (Hw : In line (filter (is_content U) (split_on 10 page_text)) ->
                 split U line = []).
    { intros Hl. destruct (split U line) as [| w ws] eqn:Es; [reflexivity |].
      assert (Hin' : In w (flat_map (split U)
                             (filter (is_content U) (split_on 10 page_text)))).
      { apply in_flat_map. exists line. split; [exact Hl |]. rewrite Es. now left. }
      rewrite W in Hin'. destruct Hin'. }
    unfold is_content in Hc. apply andb_true_iff in Hc as [_ Hj].
    apply negb_true_iff in Hj.
    exact (split_nonblank U line (is_junk_false_strip U line Hj) (Hw Hf)).
  - intros H. unfold page_records, page_lines.
    destruct (page_without_content U uuid4 pdf_path page_num
                (split_on 10 page_text) (fresh calls)) as [Hd Hb];
      [reflexivity | |].
    + apply Forall_forall. intros line Hin. specialize (H line Hin).
      unfold is_content in H.
      destruct (is_title U line); [now left |].
      destruct (is_junk U line); [now right | discriminate H].
    + unfold save_section. now rewrite Hb.
Qed.

(** X4: a page has at most one record per content line, and at most one
    record more than it has title lines. *)
Theorem page_records_count (U : ucd) (uuid4 : nat -> str) (pdf_path : str)
  (calls page_num : nat) (page_text : str) :
  let lines := split_on 10 page_text in
  let records := page_records U uuid4 pdf_path calls page_num page_text in
  List.length records <= List.length (filter (is_content U) lines) /\
  List.length records <= List.length (filter (is_title U) lines) + 1.
Proof.
  cbv zeta. unfold page_records, page_lines. rewrite save_count. split.
  - pose proof (fold_count_content U uuid4 pdf_path page_num
                  (split_on 10 page_text) (fresh calls)) as H.
    simpl in H. exact H.
  - pose proof (fold_count_title U uuid4 pdf_path page_num
                  (split_on 10 page_text) (fresh calls)) as H.
    simpl in H. unfold pending. destruct (truthy _); lia.
Qed.

(** X5: junk lines are invisible: dropping from a page the lines that are
    junk and not titles leaves the accumulator, and so the records, as they
    are. *)
Theorem junk_lines_are_invisible (U : ucd) (uuid4 : nat -> str) (pdf_path : str)
  (page_num : nat) (st : loop_state) (lines : list str) :
  page_lines U uuid4 pdf_path page_num st
    (filter (fun line => is_title U line || negb (is_junk U line)) lines) =
  page_lines U uuid4 pdf_path page_num st lines.
Proof.
  unfold page_lines. now rewrite fold_without_junk.
Qed.

(** ** Identifiers *)

Section Identifiers.

Variables (U : ucd) (uuid4 : nat -> str) (pdf_path : str).

(** The identifiers of the list are the first ones drawn, in order, and no
    other has been drawn. *)
Definition ids_in_order (l : list section) (calls : nat) : Prop :=
  map id l = map uuid4 (seq 0 (List.length l)) /\ calls = List.length l.

Lemma save_section_ids n st :
  ids_in_order (structured_data st) (uuid_calls st) ->
  ids_in_order (structured_data (save_section U uuid4 pdf_path n st))
    (uuid_calls (save_section U uuid4 pdf_path n st)).
Proof.
  intros [Hm Hc]. unfold save_section. destruct (truthy _); [| now split].
  split; simpl.
  - rewrite length_app, map_app. simpl. rewrite Nat.add_1_r, seq_S, map_app.
    simpl. now rewrite Hm, Hc.
  - rewrite length_app. simpl. lia.
Qed.

Lemma line_step_ids n st line :
  ids_in_order (structured_data st) (uuid_calls st) ->
  ids_in_order (structured_data (line_step U uuid4 pdf_path n st line))
    (uuid_calls (line_step U uuid4 pdf_path n st line)).
Proof.
  intros H. unfold line_step. destruct (is_title U line).
  - simpl. now apply save_section_ids.
  - destruct (negb (is_junk U line)); exact H.
Qed.

Lemma page_lines_ids n lines st :
  ids_in_order (structured_data st) (uuid_calls st) ->
  ids_in_order (structured_data (page_lines U uuid4 pdf_path n st lines))
    (uuid_calls (page_lines U uuid4 pdf_path n st lines)).
Proof.
  unfold page_lines. revert st.
  induction lines as [| line lines IH]; intros st H; simpl.
  - now apply save_section_ids.
  - apply IH. now apply line_step_ids.
Qed.

Lemma pages_ids (pages : list (nat * str)) (d : doc_state) :
  ids_in_order (doc_data d) (doc_uuid_calls d) ->
  ids_in_order (doc_data (fold_left (page_step U uuid4 pdf_path) pages d))
    (doc_uuid_calls (fold_left (page_step U uuid4 pdf_path) pages d)).
Proof.
  revert d. induction pages as [| [n t] pages IH]; intros d H; simpl;
    [exact H |].
  apply IH. simpl. now apply page_lines_ids.
Qed.

Lemma extract_ids (PDF_LIBRARY : pdf_library) (pages : list str) :
  let out := extract_structured_sections U uuid4 pdf_path PDF_LIBRARY pages in
  map id out = map uuid4 (seq 0 (List.length out)).
Proof.
  cbv zeta. unfold extract_structured_sections, run_pages.
  destruct PDF_LIBRARY; apply pages_ids; now split.
Qed.

End Identifiers.

Lemma NoDup_map_injective {A B : Type} (f : A -> B) (l : list A) :
  (forall x y, f x = f y -> x = y) -> NoDup l -> NoDup (map f l).
Proof.
  intros Hinj Hl. induction Hl as [| x l Hx _ IH]; simpl; constructor;
    [| exact IH].
  intros Hin. apply in_map_iff in Hin as (y & E & Hy).
  apply Hinj in E. now subst y.
Qed.

(** X6: every record gets an identifier of its own draw: the record at
    position [i] of the list returned carries the [i]-th identifier drawn.
    So, when no identifier is drawn twice, no two records share one. *)
Theorem one_identifier_per_record (U : ucd) (uuid4 : nat -> str) (pdf_path : str)
  (PDF_LIBRARY : pdf_library) (pages : list str) :
  let out := extract_structured_sections U uuid4 pdf_path PDF_LIBRARY pages in
  map id out = map uuid4 (seq 0 (List.length out)) /\
  ((forall i j, uuid4 i = uuid4 j -> i = j) -> NoDup (map id out)).
Proof.
  cbv zeta. split; [apply extract_ids |].
  intros Hinj. rewrite extract_ids.
  apply NoDup_map_injective; [exact Hinj | apply seq_NoDup].
Qed.

Lemma one_identifier_per_record_witness :
  NoDup (map id
           (extract_structured_sections basic_latin (fun n => [N.of_nat n])
              (py "doc.pdf") pymupdf
              [join [ch "010"] example_lines; join [ch "010"] example_lines])).
Proof.
  apply (one_identifier_per_record basic_latin (fun n => [N.of_nat n])
           (py "doc.pdf") pymupdf).
  intros i j H. injection H as H. now apply Nat2N.inj.
Defined.

(** ** Where the fields of a record come from *)

Section Provenance.

Variables (U : ucd) (uuid4 : nat -> str) (pdf_path : str).

Lemma is_title_shape (line : str) :
  is_title U line = true ->
  strip U line <> [] /\ len (strip U line) <= 120 /\
  endswith (strip U line) (py ".") = false.
Proof.
  unfold is_title. destruct (strip U line) as [| c x] eqn:E; [discriminate |].
  simpl negb. rewrite orb_false_l.
  destruct (120 <? len (c :: x)) eqn:Hl; [discriminate |].
  destruct (endswith (c :: x) (py ".")); [discriminate |].
  intros _. apply Nat.ltb_ge in Hl. repeat split; [discriminate | exact Hl].
Qed.

(** The title is the default one or a trimmed title line among [lines]. *)
Definition title_from (lines : list str) (t : str) : Prop :=
  t = default_title \/
  exists line, In line lines /\ is_title U line = true /\ t = strip U line.

Lemma fold_titles (all : list str) (n : nat) (lines : list str) (st : loop_state) :
  (forall line, In line lines -> In line all) ->
  Forall (fun r => title_from all (title r)) (structured_data st) ->
  title_from all (current_title st) ->
  Forall (fun r => title_from all (title r))
    (structured_data (fold_left (line_step U uuid4 pdf_path n) lines st)) /\
  title_from all (current_title (fold_left (line_step U uuid4 pdf_path n) lines st)).
Proof.
  revert st. induction lines as [| line lines IH]; intros st Hin Hd Ht; simpl;
    [now split |].
  apply IH; [intros l Hl; apply Hin; now right | |].
  - unfold line_step. destruct (is_title U line); simpl.
    + unfold save_section. destruct (truthy _); [| exact Hd].
      simpl. apply Forall_app. split; [exact Hd |].
      constructor; [exact Ht | constructor].
    + destruct (negb (is_junk U line)); exact Hd.
  - unfold line_step. destruct (is_title U line) eqn:E; simpl.
    + right. exists line. split; [apply Hin; now left | now split].
    + destruct (negb (is_junk U line)); exact Ht.
Qed.

Lemma normalize_fixed (b : str) : normalize U (normalize U b) = normalize U b.
Proof. unfold normalize at 1. now rewrite split_normalize. Qed.

(** The fields of a record of the page of index [n] whose text is [t]. *)
Definition record_of_page (n : nat) (t : str) (r : section) : Prop :=
  page_number r = n + 1 /\ source r = pdf_path /\
  text r <> [] /\ normalize U (text r) = text r /\
  title_from (split_on 10 t) (title r).

Lemma page_records_fields (calls n : nat) (t : str) :
  Forall (record_of_page n t) (page_records U uuid4 pdf_path calls n t).
Proof.
  assert (H1 : Forall (fun r => page_number r = n + 1 /\ source r = pdf_path /\
                                text r <> [] /\ normalize U (text r) = text r)
                 (page_records U uuid4 pdf_path calls n t)).
  { apply page_records_Forall. intros st Hb. simpl.
    repeat split; [now apply normalize_nonempty | apply normalize_fixed]. }
  assert (H2 : Forall (fun r => title_from (split_on 10 t) (title r))
                 (page_records U uuid4 pdf_path calls n t)).
  { unfold page_records, page_lines.
    destruct (fold_titles (split_on 10 t) n (split_on 10 t) (fresh calls))
      as [Hd Ht]; [auto | constructor | now left |].
    unfold save_section. destruct (truthy _); [| exact Hd].
    simpl. apply Forall_app. split; [exact Hd |].
    constructor; [exact Ht | constructor]. }
  rewrite Forall_forall in *. intros r Hr. unfold record_of_page.
  destruct (H1 r Hr) as (? & ? & ? & ?). repeat split; auto.
Qed.

Lemma combine_seq_In {A : Type} (l : list A) (k m n : nat) (x : A) :
  In (n, x) (combine (seq k m) l) ->
  exists i, n = k + i /\ nth_error l i = Some x.
Proof.
  revert k m. induction l as [| y l IH]; intros k m H.
  - destruct m; destruct H.
  - destruct m as [| m]; [destruct H |]. simpl in H. destruct H as [H | H].
    + injection H as <- <-. exists 0. split; [lia | reflexivity].
    + destruct (IH _ _ H) as (i & -> & Hi). exists (S i). split; [lia | exact Hi].
Qed.

Lemma pages_records_fields (pages : list (nat * str)) (calls : nat) :
  Forall (fun r => exists n t, In (n, t) pages /\ record_of_page n t r)
    (pages_records U uuid4 pdf_path calls pages).
Proof.
  revert calls. induction pages as [| [n t] pages IH]; intros calls; simpl;
    [constructor |].
  apply Forall_app. split.
  - eapply Forall_impl; [| apply page_records_fields].
    intros r Hr. exists n, t. split; [now left | exact Hr].
  - eapply Forall_impl; [| apply IH].
    intros r (n' & t' & Hin & Hr). exists n', t'. split; [now right | exact Hr].
Qed.

Lemma extract_fields (PDF_LIBRARY : pdf_library) (pages : list str) :
  Forall (fun r => exists n t, nth_error pages n = Some t /\ record_of_page n t r)
    (extract_structured_sections U uuid4 pdf_path PDF_LIBRARY pages).
Proof.
  rewrite extract_pages_records.
  eapply Forall_impl; [| apply pages_records_fields].
  intros r (n & t & Hin & Hr). apply combine_seq_In in Hin as (i & -> & Hi).
  now exists i, t.
Qed.

End Provenance.

(** X7: every record returned carries the path given as its source, the
    number (from 1) of a page of the document, and a text that is not empty
    and is in normal form: its words, separated by single spaces. *)
Theorem record_page_source_text (U : ucd) (uuid4 : nat -> str) (pdf_path : str)
  (PDF_LIBRARY : pdf_library) (pages : list str) :
  Forall
    (fun r =>
       source r = pdf_path /\
       1 <= page_number r <= List.length pages /\
       text r <> [] /\
       text r = join (py " ") (split U (text r)))
    (extract_structured_sections U uuid4 pdf_path PDF_LIBRARY pages).
Proof.
  eapply Forall_impl; [| apply extract_fields].
  intros r (n & t & Hn & Hp & Hs & Ht & Hnorm & _).
  assert (n < List.length pages) by (apply nth_error_Some; congruence).
  repeat split; try assumption; try lia. symmetry. exact Hnorm.
Qed.

(** X8: the title of a record is the default title or the trimmed form of a
    title line of the page the record is numbered with; it is not empty, has
    at most 120 characters and does not end with a full stop. *)
Theorem record_title_origin (U : ucd) (uuid4 : nat -> str) (pdf_path : str)
  (PDF_LIBRARY : pdf_library) (pages : list str) :
  Forall
    (fun r =>
       (title r = py "General Information" \/
        exists page_text line,
          nth_error pages (page_number r - 1) = Some page_text /\
          In line (split_on 10 page_text) /\
          is_title U line = true /\ title r = strip U line) /\
       title r <> [] /\ len (title r) <= 120 /\
       endswith (title r) (py ".") = false)
    (extract_structured_sections U uuid4 pdf_path PDF_LIBRARY pages).
Proof.
  eapply Forall_impl; [| apply extract_fields].
  intros r (n & t & Hn & Hp & _ & _ & _ & Ht).
  destruct Ht as [Ht | (line & Hin & Hl & Ht)].
  - rewrite Ht. split; [now left |]. split; [discriminate |].
    split; [apply Nat.leb_le; reflexivity | reflexivity].
  - split.
    + right. exists t, line. rewrite Hp.
      replace (n + 1 - 1) with n by lia. now repeat split.
    + rewrite Ht. now apply is_title_shape.
Qed.

(** ** Letter case in the junk predicate *)

(** A string of Basic Latin characters. *)
Definition basic (w : str) : Prop := forallb is_ascii w = true.

Section Letter_case.

Variable U : ucd.

Lemma ascii_lower_isspace (c : N) :
  ascii_isspace (ascii_lower c) = ascii_isspace c.
Proof.
  unfold ascii_lower, ascii_isupper, ascii_isspace, in_range.
  destruct (N.leb_spec 65 c), (N.leb_spec c 90); simpl; try reflexivity.
  destruct (N.leb_spec 9 (c + 32)), (N.leb_spec (c + 32) 13),
    (N.leb_spec 28 (c + 32)), (N.leb_spec (c + 32) 32),
    (N.leb_spec 9 c), (N.leb_spec c 13), (N.leb_spec 28 c), (N.leb_spec c 32);
    simpl; try reflexivity; lia.
Qed.

Lemma ascii_lower_is_ascii (c : N) : is_ascii c = true -> is_ascii (ascii_lower c) = true.
Proof.
  unfold ascii_lower, ascii_isupper, in_range, is_ascii.
  destruct (N.leb_spec 65 c), (N.leb_spec c 90); simpl; try tauto.
  intros _. apply N.ltb_lt. lia.
Qed.

Lemma isspace_c_lower (c : N) :
  is_ascii c = true -> isspace_c U (ascii_lower c) = isspace_c U c.
Proof.
  intros H. unfold isspace_c, table.
  now rewrite H, (ascii_lower_is_ascii c H), ascii_lower_isspace.
Qed.

Lemma basic_app (a b : str) : basic (a ++ b) <-> basic a /\ basic b.
Proof. unfold basic. rewrite forallb_app. apply andb_true_iff. Qed.

Lemma basic_rev (a : str) : basic a -> basic (rev a).
Proof.
  unfold basic. rewrite !forallb_forall. intros H c Hc. apply H.
  now apply in_rev.
Qed.

Lemma basic_map_lower (a : str) : basic a -> basic (map ascii_lower a).
Proof.
  unfold basic. induction a as [| c a IH]; simpl; [reflexivity |].
  intros H. apply andb_true_iff in H as [Hc Ha].
  now rewrite (ascii_lower_is_ascii c Hc), IH.
Qed.

Lemma lower_from_basic (w before rest : str) :
  basic w ->
  lower_from U before (w ++ rest) =
  map ascii_lower w ++ lower_from U (before ++ w) rest.
Proof.
  unfold basic. revert before. induction w as [| c w IH]; intros before H; simpl.
  - now rewrite app_nil_r.
  - simpl in H. apply andb_true_iff in H as [Hc Hw].
    unfold lower_c. rewrite Hc. simpl. rewrite IH by exact Hw.
    now rewrite <- app_assoc.
Qed.

Lemma lower_basic (w : str) : basic w -> lower U w = map ascii_lower w.
Proof.
  intros H. unfold lower. rewrite <- (app_nil_r w) at 1.
  rewrite lower_from_basic by exact H. simpl. now rewrite app_nil_r.
Qed.

Lemma lower_from_tail (s1 s2 before : str) :
  exists t, lower_from U before (s1 ++ s2) = t ++ lower_from U (before ++ s1) s2.
Proof.
  revert before. induction s1 as [| c s1 IH]; intros before; simpl.
  - exists []. now rewrite app_nil_r.
  - destruct (IH (before ++ [c])) as (t & E).
    exists (lower_c U before c (s1 ++ s2) ++ t).
    now rewrite E, <- !app_assoc.
Qed.

Lemma lstrip_map_lower (s : str) :
  basic s -> lstrip U (map ascii_lower s) = map ascii_lower (lstrip U s).
Proof.
  unfold basic. induction s as [| c s IH]; simpl; [reflexivity |].
  intros H. apply andb_true_iff in H as [Hc Hs].
  rewrite isspace_c_lower by exact Hc.
  destruct (isspace_c U c); [now apply IH | reflexivity].
Qed.

Lemma lstrip_basic (s : str) : basic s -> basic (lstrip U s).
Proof.
  intros H. destruct (lstrip_split U s) as (a & _ & E). rewrite E in H.
  now apply basic_app in H.
Qed.

Lemma strip_map_lower (s : str) :
  basic s -> strip U (map ascii_lower s) = map ascii_lower (strip U s).
Proof.
  intros H. unfold strip, rstrip.
  rewrite lstrip_map_lower, <- map_rev, lstrip_map_lower, map_rev by
    (try apply basic_rev; try apply lstrip_basic; exact H).
  reflexivity.
Qed.

Lemma strip_basic (s : str) : basic s -> basic (strip U s).
Proof.
  intros H. destruct (strip_split U s) as (a & b & _ & _ & E). rewrite E in H.
  apply basic_app in H as [_ H]. now apply basic_app in H.
Qed.

(** A line of Basic Latin characters is judged on its lower-case form. *)
Lemma is_junk_basic (line : str) :
  basic line ->
  lower U (strip U line) = strip U (map ascii_lower line).
Proof.
  intros H. rewrite strip_map_lower by exact H.
  apply lower_basic. now apply strip_basic.
Qed.

(** A word that starts and ends with characters that are not white space
    survives trimming. *)
Lemma lstrip_keeps (pre rest : str) (c : N) :
  isspace_c U c = false ->
  exists p, lstrip U (pre ++ c :: rest) = p ++ c :: rest.
Proof.
  intros Hc. induction pre as [| a pre IH]; simpl.
  - rewrite Hc. now exists [].
  - destruct (isspace_c U a); [exact IH | now exists (a :: pre)].
Qed.

Lemma strip_keeps (pre w0 post : str) (c d : N) :
  isspace_c U c = false -> isspace_c U d = false ->
  exists p q, strip U (pre ++ (c :: w0 ++ [d]) ++ post) = p ++ (c :: w0 ++ [d]) ++ q.
Proof.
  intros Hc Hd. unfold strip.
  destruct (lstrip_keeps pre ((w0 ++ [d]) ++ post) c Hc) as (p & Ep).
  simpl. rewrite Ep. unfold rstrip.
  replace (rev (p ++ c :: (w0 ++ [d]) ++ post))
    with (rev post ++ d :: rev (p ++ c :: w0))
    by (rewrite !rev_app_distr; simpl; rewrite !rev_app_distr; simpl;
        now rewrite <- !app_assoc).
  destruct (lstrip_keeps (rev post) (rev (p ++ c :: w0)) d Hd) as (q & Eq).
  rewrite Eq. exists p, (rev q).
  rewrite rev_app_distr. simpl. rewrite rev_involutive.
  now rewrite <- !app_assoc.
Qed.

End Letter_case.

(** The first and the last character of a keyword are not white space. *)
Definition edges_ok (kw : str) : bool :=
  match kw with
  | [] => false
  | c :: rest =>
      match rev rest with
      | [] => false
      | d :: _ => negb (ascii_isspace c) && negb (ascii_isspace d)
      end
  end.

Lemma junk_keywords_edges : forallb edges_ok junk_keywords = true.
Proof. vm_compute. reflexivity. Qed.

Lemma edges_of_cased (U : ucd) (w : str) :
  basic w -> edges_ok (map ascii_lower w) = true ->
  exists c w0 d,
    w = c :: w0 ++ [d] /\ isspace_c U c = false /\ isspace_c U d = false.
Proof.
  intros Hb H. destruct w as [| c rest]; [discriminate H |].
  simpl in H. rewrite <- map_rev in H.
  destruct (rev rest) as [| d r] eqn:Er; [discriminate H |].
  simpl in H. apply andb_true_iff in H as [Hc Hd].
  apply negb_true_iff in Hc, Hd.
  assert (Erest : rest = rev r ++ [d])
    by (rewrite <- (rev_involutive rest), Er; reflexivity).
  subst rest. exists c, (rev r), d. split; [reflexivity |].
  unfold basic in Hb. simpl in Hb. apply andb_true_iff in Hb as [Hac Hb].
  rewrite forallb_app in Hb. apply andb_true_iff in Hb as [_ Had].
  simpl in Had. rewrite andb_true_r in Had.
  rewrite ascii_lower_isspace in Hc, Hd.
  unfold isspace_c, table. now rewrite Hac, Had.
Qed.

(** X9: a line is junk as soon as it contains a keyword of the denylist
    anywhere, in any mix of upper and lower case, whatever else the line
    holds. *)
Theorem keyword_makes_junk (U : ucd) (pre w post : str) :
  basic w -> In (map ascii_lower w) junk_keywords ->
  is_junk U (pre ++ w ++ post) = true.
Proof.
  intros Hb Hin.
  assert (He : edges_ok (map ascii_lower w) = true).
  { pose proof junk_keywords_edges as H. rewrite forallb_forall in H. now apply H. }
  destruct (edges_of_cased U w Hb He) as (c & w0 & d & Ew & Hc & Hd).
  destruct (strip_keeps U pre w0 post c d Hc Hd) as (p & q & Es).
  rewrite <- Ew in Es.
  destruct (lower_from_tail U p (w ++ q) []) as (t & El).
  rewrite (lower_from_basic U w) in El by exact Hb. simpl in El.
  rewrite is_junk_cases. unfold lower. rewrite Es, El.
  apply orb_true_iff. left. apply orb_true_iff. right.
  apply existsb_exists. exists (map ascii_lower w). split; [exact Hin |].
  apply contains_substring. now exists t, (lower_from U (p ++ w) q).
Qed.

Lemma keyword_makes_junk_witness :
  is_junk basic_latin (py "See Approx" ++ py ".In" ++ py "come for details") = true.
Proof.
  apply keyword_makes_junk; [reflexivity |].
  vm_compute. tauto.
Defined.

(** X10: lines of Basic Latin characters that differ only in the case of
    their letters are junk together or not at all. *)
Theorem is_junk_ignores_case (U : ucd) (a b : str) :
  basic a -> basic b -> map ascii_lower a = map ascii_lower b ->
  is_junk U a = is_junk U b.
Proof.
  intros Ha Hb E. unfold is_junk.
  now rewrite (is_junk_basic U a Ha), (is_junk_basic U b Hb), E.
Qed.

Lemma is_junk_ignores_case_witness :
  is_junk basic_latin (py "Registered OFFICE: Pune") =
  is_junk basic_latin (py "registered office: pune").
Proof.
  apply is_junk_ignores_case; reflexivity.
Defined.

(** ** The title predicate in plain terms *)

Section Title_shape.

Variable U : ucd.

Abbreviation matches := (matches U).

(** The enumerators: one or two digits and a full stop; a capital letter of
    Basic Latin and a full stop; a small letter of Basic Latin in
    parentheses; one or more of [i], [v], [x] in parentheses; a bullet. *)
Definition enumerator (e : str) : Prop :=
  (exists ds, e = ds ++ py "." /\
              (List.length ds = 1 \/ List.length ds = 2) /\
              forallb (isdecimal_c U) ds = true) \/
  (exists c, e = [c; ch "."] /\ in_range (ch "A") (ch "Z") c = true) \/
  (exists c, e = [ch "("; c; ch ")"] /\ in_range (ch "a") (ch "z") c = true) \/
  (exists rs, e = ch "(" :: rs ++ [ch ")"] /\ rs <> [] /\
              forallb (fun c => existsb (N.eqb c) (py "ivx")) rs = true) \/
  e = [8226%N].

Lemma matches_chr_iff (d : N) (s : str) : matches (Sym (Chr d)) s <-> s = [d].
Proof.
  rewrite matches_sym_iff. simpl. split.
  - intros (c & -> & H). apply N.eqb_eq in H. now subst.
  - intros ->. exists d. split; [reflexivity | apply N.eqb_refl].
Qed.

Lemma matches_eps_iff (s : str) : matches Eps s <-> s = [].
Proof. split; [intros H; now inversion H | intros ->; constructor]. Qed.

Lemma matches_rep_1_2_iff (cs : charset) (s : str) :
  matches (Rep_1_2 (Sym cs)) s <->
  (List.length s = 1 \/ List.length s = 2) /\ forallb (in_charset U cs) s = true.
Proof.
  unfold Rep_1_2. rewrite matches_cat_iff. split.
  - intros (s1 & s2 & -> & H1 & H2).
    apply matches_sym_iff in H1 as (c & -> & Hc).
    apply matches_alt_iff in H2 as [H2 | H2].
    + apply matches_sym_iff in H2 as (c' & -> & Hc'). simpl.
      rewrite Hc, Hc'. split; [now right | reflexivity].
    + apply matches_eps_iff in H2 as ->. simpl. rewrite Hc.
      split; [now left | reflexivity].
  - intros [[Hl | Hl] Hall].
    + destruct s as [| c [| c' s]]; try discriminate Hl.
      simpl in Hall. rewrite andb_true_r in Hall.
      exists [c], []. split; [reflexivity |]. split.
      * now constructor.
      * apply matches_alt_r. constructor.
    + destruct s as [| c [| c' [| c'' s]]]; try discriminate Hl.
      simpl in Hall. rewrite andb_true_r in Hall.
      apply andb_true_iff in Hall as [Hc Hc'].
      exists [c], [c']. split; [reflexivity |]. split.
      * now constructor.
      * apply matches_alt_l. now constructor.
Qed.

Lemma enumerator_matches (e : str) :
  matches
    (Alt (Cat (Rep_1_2 (Sym Digit)) (Sym (Chr (ch "."))))
    (Alt (Cat (Sym (Range (ch "A") (ch "Z"))) (Sym (Chr (ch "."))))
    (Alt (Cat (Sym (Chr (ch "("))) (Cat (Sym (Range (ch "a") (ch "z"))) (Sym (Chr (ch ")")))))
    (Alt (Cat (Sym (Chr (ch "("))) (Cat (Plus (Sym (OneOf (py "ivx")))) (Sym (Chr (ch ")")))))
         (Sym (Chr 8226)))))) e <->
  enumerator e.
Proof.
  unfold enumerator. rewrite !matches_alt_iff.
  repeat apply or_iff_both.
  - rewrite matches_cat_iff. split.
    + intros (ds & s2 & -> & Hds & H2). apply matches_chr_iff in H2 as ->.
      apply matches_rep_1_2_iff in Hds as [Hl Hall]. now exists ds.
    + intros (ds & -> & Hl & Hall). exists ds, (py "."). split; [reflexivity |].
      split; [now apply matches_rep_1_2_iff | now apply matches_chr_iff].
  - rewrite matches_cat_iff. split.
    + intros (s1 & s2 & -> & H1 & H2). apply matches_chr_iff in H2 as ->.
      apply matches_sym_iff in H1 as (c & -> & Hc). now exists c.
    + intros (c & -> & Hc). exists [c], [ch "."]. split; [reflexivity |].
      split; [now constructor | now apply matches_chr_iff].
  - rewrite matches_cat_iff. split.
    + intros (s1 & s2 & -> & H1 & H2). apply matches_chr_iff in H1 as ->.
      apply matches_cat_iff in H2 as (s3 & s4 & -> & H3 & H4).
      apply matches_chr_iff in H4 as ->.
      apply matches_sym_iff in H3 as (c & -> & Hc). now exists c.
    + intros (c & -> & Hc). exists [ch "("], [c; ch ")"]. split; [reflexivity |].
      split; [now apply matches_chr_iff |].
      apply matches_cat_iff. exists [c], [ch ")"]. split; [reflexivity |].
      split; [now constructor | now apply matches_chr_iff].
  - rewrite matches_cat_iff. split.
    + intros (s1 & s2 & -> & H1 & H2). apply matches_chr_iff in H1 as ->.
      apply matches_cat_iff in H2 as (rs & s4 & -> & H3 & H4).
      apply matches_chr_iff in H4 as ->.
      apply matches_plus_sym_iff in H3 as [Hne Hall]. now exists rs.
    + intros (rs & -> & Hne & Hall). exists [ch "("], (rs ++ [ch ")"]).
      split; [reflexivity |]. split; [now apply matches_chr_iff |].
      apply matches_cat_iff. exists rs, [ch ")"]. split; [reflexivity |].
      split; [now apply matches_plus_sym_iff | now apply matches_chr_iff].
  - apply matches_chr_iff.
Qed.

Lemma title_pattern_matches (p : str) :
  matches title_pattern p <->
  exists ws e gap,
    p = ws ++ e ++ gap /\ spaces U ws /\ enumerator e /\
    gap <> [] /\ spaces U gap.
Proof.
  unfold title_pattern. rewrite matches_cat_iff. split.
  - intros (ws & s2 & -> & Hws & H2).
    apply matches_cat_iff in H2 as (e & gap & -> & He & Hgap).
    apply matches_star_sym_iff in Hws.
    apply matches_plus_sym_iff in Hgap as [Hne Hgap].
    apply enumerator_matches in He. now exists ws, e, gap.
  - intros (ws & e & gap & -> & Hws & He & Hne & Hgap).
    exists ws, (e ++ gap). split; [reflexivity |].
    split; [now apply matches_star_sym_iff |].
    apply matches_cat_iff. exists e, gap. split; [reflexivity |].
    split; [now apply enumerator_matches | now apply matches_plus_sym_iff].
Qed.

Lemma enumerator_nonempty (e : str) : enumerator e -> e <> [].
Proof.
  intros [(ds & -> & _) | [(c & -> & _) | [(c & -> & _) | [(rs & -> & _) | ->]]]];
    try discriminate.
  destruct ds; discriminate.
Qed.

(** A trimmed string starts and ends with no white space. *)
Lemma trimmed_no_leading_space (ws y : str) :
  trimmed U (ws ++ y) -> spaces U ws -> ws ++ y <> [] -> ws = [].
Proof.
  intros [Hl _] Hws Hne. destruct ws as [| c ws]; [reflexivity |]. exfalso.
  unfold spaces in Hws. simpl in Hws. apply andb_true_iff in Hws as [Hc _].
  simpl in Hl. rewrite Hc in Hl.
  destruct (lstrip_split U (ws ++ y)) as (a & _ & Ea).
  rewrite Hl in Ea. apply (f_equal (@List.length N)) in Ea.
  rewrite (length_app a) in Ea. simpl in Ea. lia.
Qed.

Lemma trimmed_no_trailing_space (y ws : str) :
  trimmed U (y ++ ws) -> spaces U ws -> ws = [].
Proof.
  intros [_ Hr] Hws. destruct (rev ws) as [| c r] eqn:Er.
  - rewrite <- (rev_involutive ws), Er. reflexivity.
  - exfalso. apply spaces_rev in Hws. rewrite Er in Hws.
    unfold spaces in Hws. simpl in Hws. apply andb_true_iff in Hws as [Hc _].
    unfold rstrip in Hr. rewrite rev_app_distr, Er in Hr. simpl in Hr.
    rewrite Hc in Hr. destruct (lstrip_split U (r ++ rev y)) as (a & _ & Ea).
    apply (f_equal (@rev N)) in Hr. rewrite rev_involutive in Hr.
    rewrite Hr in Ea.
    assert (Ews : ws = rev r ++ [c])
      by (rewrite <- (rev_involutive ws), Er; reflexivity).
    rewrite Ews in Ea. apply (f_equal (@List.length N)) in Ea.
    rewrite !length_app, !length_rev, !length_app, !length_rev in Ea.
    simpl in Ea. rewrite ?length_app, ?length_rev in Ea. simpl in Ea. lia.
Qed.

(** The trimmed line starts with an enumerator, white space and something
    more. *)
Definition starts_with_enumerator (x : str) : Prop :=
  exists e gap rest,
    x = e ++ gap ++ rest /\ enumerator e /\
    gap <> [] /\ spaces U gap /\ rest <> [].

Lemma re_match_title_pattern (x : str) :
  trimmed U x ->
  re_match U title_pattern x = true <-> starts_with_enumerator x.
Proof.
  intros Hx. rewrite re_match_matches. split.
  - intros (p & rest & -> & Hp).
    apply title_pattern_matches in Hp as (ws & e & gap & -> & Hws & He & Hne & Hgap).
    assert (ws = []) as ->.
    { apply (trimmed_no_leading_space ws ((e ++ gap) ++ rest)).
      - now rewrite <- !app_assoc in *.
      - exact Hws.
      - pose proof (enumerator_nonempty e He). destruct ws, e; simpl; congruence. }
    simpl in *. exists e, gap, rest. rewrite <- app_assoc.
    repeat split; try assumption.
    intros ->. rewrite app_nil_r in Hx.
    apply trimmed_no_trailing_space in Hx; [congruence | exact Hgap].
  - intros (e & gap & rest & -> & He & Hne & Hgap & _).
    exists (e ++ gap), rest. split; [now rewrite <- app_assoc |].
    apply title_pattern_matches. now exists [], e, gap.
Qed.

Lemma endswith_suffix (s p : str) :
  endswith s p = true <-> exists pre, s = pre ++ p.
Proof.
  unfold endswith. rewrite startswith_prefix. split.
  - intros (post & E). exists (rev post).
    rewrite <- (rev_involutive s), E, rev_app_distr. now rewrite rev_involutive.
  - intros (pre & ->). exists (rev pre). now rewrite rev_app_distr.
Qed.

Lemma is_title_cases (line : str) :
  is_title U line =
  truthy (strip U line) && negb (120 <? len (strip U line)) &&
  negb (endswith (strip U line) (py ".")) &&
  (re_match U title_pattern (strip U line) ||
   (List.length (split U (strip U line)) <? 8) &&
   (isupper U (strip U line) || istitle U (strip U line))).
Proof.
  unfold is_title.
  destruct (truthy (strip U line)); simpl; [| reflexivity].
  destruct (120 <? len (strip U line)); simpl; [reflexivity |].
  destruct (endswith (strip U line) (py ".")); simpl; [reflexivity |].
  destruct (re_match U title_pattern (strip U line)); simpl; [reflexivity |].
  destruct (List.length (split U (strip U line)) <? 8); simpl; [| reflexivity].
  destruct (isupper U (strip U line)); simpl; [reflexivity |].
  now destruct (istitle U (strip U line)).
Qed.

End Title_shape.

(** X11: a line is a title exactly when its trimmed form is not empty, has
    at most 120 characters, does not end with a full stop, and either starts
    with an enumerator followed by white space and more text, or has fewer
    than 8 words and is upper case or title case. *)
Theorem is_title_iff (U : ucd) (line : str) :
  is_title U line = true <->
  strip U line <> [] /\
  len (strip U line) <= 120 /\
  (forall pre, strip U line <> pre ++ py ".") /\
  (starts_with_enumerator U (strip U line) \/
   (List.length (split U line) < 8 /\
    (isupper U (strip U line) = true \/ istitle U (strip U line) = true))).
Proof.
  rewrite is_title_cases, !andb_true_iff, orb_true_iff, andb_true_iff,
    orb_true_iff, !negb_true_iff, Nat.ltb_ge, Nat.ltb_lt, split_strip.
  rewrite (re_match_title_pattern U (strip U line) (strip_trimmed U line)).
  assert (Hd : endswith (strip U line) (py ".") = false <->
               forall pre, strip U line <> pre ++ py ".").
  { split.
    - intros H pre E. assert (endswith (strip U line) (py ".") = true)
        by (apply endswith_suffix; now exists pre). congruence.
    - intros H. destruct (endswith (strip U line) (py ".")) eqn:E; [| reflexivity].
      apply endswith_suffix in E as (pre & E). now apply H in E. }
  assert (Hn : truthy (strip U line) = true <-> strip U line <> [])
    by (destruct (strip U line); simpl; split; congruence).
  rewrite Hd, Hn. tauto.
Qed.

(** ** One document after another *)

(** The fields of a record other than its identifier, the page number moved
    by [k]. *)
Definition shift (k : nat) (c : nat * str * str * str) : nat * str * str * str :=
  let '(n, t, x, s) := c in (n + k, t, x, s).

Section Shifted_runs.

Variables (U : ucd) (pdf_path : str) (uuid4 uuid4' : nat -> str) (k : nat).

(** Two states of the loop over the lines that agree on all but the
    identifiers and the page numbers, which are [k] apart. *)
Definition same_but_shifted (st st' : loop_state) : Prop :=
  map (fun r => shift k (content r)) (structured_data st) =
  map content (structured_data st') /\
  current_title st = current_title st' /\
  current_text_block st = current_text_block st'.

Lemma save_section_shifted n st st' :
  same_but_shifted st st' ->
  same_but_shifted (save_section U uuid4 pdf_path n st)
    (save_section U uuid4' pdf_path (n + k) st').
Proof.
  intros (Hd & Ht & Hb). unfold save_section. rewrite <- Hb.
  destruct (truthy _); [| now repeat split].
  split; [| now split].
  unfold append_section. cbn [structured_data]. rewrite !map_app, Hd.
  f_equal. unfold content, new_section, shift. cbn. rewrite Ht, Hb.
  now replace (n + 1 + k) with (n + k + 1) by lia.
Qed.

Lemma line_step_shifted n st st' line :
  same_but_shifted st st' ->
  same_but_shifted (line_step U uuid4 pdf_path n st line)
    (line_step U uuid4' pdf_path (n + k) st' line).
Proof.
  intros H. unfold line_step. destruct (is_title U line).
  - destruct (save_section_shifted n st st' H) as (Hd & _ & _). now repeat split.
  - destruct (negb (is_junk U line)); [| exact H].
    destruct H as (Hd & Ht & Hb). repeat split; simpl; try assumption.
    now rewrite Hb.
Qed.

Lemma page_lines_shifted n lines st st' :
  same_but_shifted st st' ->
  same_but_shifted (page_lines U uuid4 pdf_path n st lines)
    (page_lines U uuid4' pdf_path (n + k) st' lines).
Proof.
  unfold page_lines. revert st st'.
  induction lines as [| line lines IH]; intros st st' H; simpl.
  - now apply save_section_shifted.
  - apply IH. now apply line_step_shifted.
Qed.

Lemma page_records_shifted calls calls' n t :
  map (fun r => shift k (content r)) (page_records U uuid4 pdf_path calls n t) =
  map content (page_records U uuid4' pdf_path calls' (n + k) t).
Proof.
  unfold page_records.
  apply (page_lines_shifted n (split_on 10 t) (fresh calls) (fresh calls')).
  now repeat split.
Qed.

Lemma pages_records_shifted (texts : list str) (j m calls calls' : nat) :
  map (fun r => shift k (content r))
    (pages_records U uuid4 pdf_path calls (combine (seq j m) texts)) =
  map content
    (pages_records U uuid4' pdf_path calls' (combine (seq (j + k) m) texts)).
Proof.
  revert j m calls calls'.
  induction texts as [| t texts IH]; intros j m calls calls'.
  - destruct m; reflexivity.
  - destruct m as [| m]; [reflexivity |]. simpl.
    rewrite !map_app, (page_records_shifted calls calls').
    f_equal. apply (IH (S j)).
Qed.

End Shifted_runs.

Lemma pages_records_app (U : ucd) (uuid4 : nat -> str) (pdf_path : str)
  (l1 l2 : list (nat * str)) (calls : nat) :
  pages_records U uuid4 pdf_path calls (l1 ++ l2) =
  pages_records U uuid4 pdf_path calls l1 ++
  pages_records U uuid4 pdf_path
    (calls + List.length (pages_records U uuid4 pdf_path calls l1)) l2.
Proof.
  revert calls. induction l1 as [| [n t] l1 IH]; intros calls; simpl.
  - now rewrite Nat.add_0_r.
  - rewrite IH, <- app_assoc, length_app. do 3 f_equal. lia.
Qed.

(** X12: the records of a document made of the pages of one document
    followed by the pages of another are the records of the first followed
    by those of the second, with the page numbers of the second moved by the
    number of pages of the first (the identifiers apart). *)
Theorem extract_of_appended_pages (U : ucd) (pdf_path : str)
  (uuid4 uuid4' : nat -> str) (PDF_LIBRARY : pdf_library)
  (pages1 pages2 : list str) :
  map content
    (extract_structured_sections U uuid4 pdf_path PDF_LIBRARY (pages1 ++ pages2)) =
  map content (extract_structured_sections U uuid4 pdf_path PDF_LIBRARY pages1) ++
  map (fun r => shift (List.length pages1) (content r))
    (extract_structured_sections U uuid4' pdf_path PDF_LIBRARY pages2).
Proof.
  rewrite !extract_pages_records. unfold enumerate.
  rewrite length_app, seq_app, combine_app_aligned by now rewrite length_seq.
  rewrite pages_records_app, map_app. f_equal.
  symmetry. apply (pages_records_shifted U pdf_path uuid4' uuid4 (List.length pages1)
                     pages2 0).
Qed.

(** ** Page-number lines in title case *)

(** Digits of Basic Latin. *)
Definition ascii_digits (ds : str) : Prop := forallb ascii_isdecimal ds = true.

Ltac by_ranges :=
  unfold ascii_lower in *;
  unfold isspace_c, isdecimal_c, isupper_c, islower_c, istitle_c, table,
    is_ascii, ascii_isspace, ascii_isdecimal, ascii_isupper, ascii_islower,
    in_range in *;
  repeat match goal with
    | H : context [N.leb ?a ?b] |- _ => destruct (N.leb_spec a b)
    | H : context [N.ltb ?a ?b] |- _ => destruct (N.ltb_spec a b)
    | |- context [N.leb ?a ?b] => destruct (N.leb_spec a b)
    | |- context [N.ltb ?a ?b] => destruct (N.ltb_spec a b)
    | |- context [N.eqb ?a ?b] => destruct (N.eqb_spec a b)
    end;
  simpl in *; try reflexivity; try congruence; try lia.

Section Page_number_titles.

Variable U : ucd.

Lemma digit_tables (c : N) :
  ascii_isdecimal c = true ->
  is_ascii c = true /\ isspace_c U c = false /\ isdecimal_c U c = true /\
  isupper_c U c = false /\ islower_c U c = false /\ istitle_c U c = false /\
  ascii_lower c = c /\ (ch "." =? c)%N = false.
Proof.
  intros H. change (ch ".") with 46%N. repeat split; by_ranges.
Qed.

Lemma digits_basic (ds : str) : ascii_digits ds -> basic ds.
Proof.
  unfold ascii_digits, basic. rewrite !forallb_forall. intros H c Hc.
  now apply (digit_tables c (H c Hc)).
Qed.

Lemma digits_nospace (ds : str) :
  ascii_digits ds -> forallb (fun c => negb (isspace_c U c)) ds = true.
Proof.
  unfold ascii_digits. rewrite !forallb_forall. intros H c Hc.
  destruct (digit_tables c (H c Hc)) as (_ & Hs & _). now rewrite Hs.
Qed.

Lemma digits_decimal (ds : str) :
  ascii_digits ds -> forallb (isdecimal_c U) ds = true.
Proof.
  unfold ascii_digits. rewrite !forallb_forall. intros H c Hc.
  now apply (digit_tables c (H c Hc)).
Qed.

Lemma digits_lower (ds : str) : ascii_digits ds -> map ascii_lower ds = ds.
Proof.
  unfold ascii_digits. induction ds as [| c ds IH]; simpl; [reflexivity |].
  intros H. apply andb_true_iff in H as [Hc Hds].
  destruct (digit_tables c Hc) as (_ & _ & _ & _ & _ & _ & -> & _).
  now rewrite IH.
Qed.

Lemma istitle_loop_digits (ds : str) (previous_is_cased : bool) :
  ascii_digits ds -> istitle_loop U true previous_is_cased ds = true.
Proof.
  unfold ascii_digits. revert previous_is_cased.
  induction ds as [| c ds IH]; intros b H; simpl; [reflexivity |].
  simpl in H. apply andb_true_iff in H as [Hc Hds].
  destruct (digit_tables c Hc) as (_ & _ & _ & -> & -> & -> & _). simpl.
  now apply IH.
Qed.

(** A word and digits, with one space between, trimmed as they are. *)
Lemma word_digits_trimmed (c : N) (w ds : str) :
  isspace_c U c = false -> ds <> [] -> ascii_digits ds ->
  strip U (c :: w ++ ds) = c :: w ++ ds.
Proof.
  intros Hc Hne Hds.
  rewrite <- (app_nil_r (c :: w ++ ds)) at 1.
  apply (strip_surrounded U [] (c :: w ++ ds) []); [| reflexivity | reflexivity].
  split; [now apply lstrip_starts |].
  destruct (exists_last Hne) as (ds0 & d & ->).
  assert (Hd : isspace_c U d = false).
  { unfold ascii_digits in Hds. rewrite forallb_app in Hds.
    apply andb_true_iff in Hds as [_ Hd]. simpl in Hd. rewrite andb_true_r in Hd.
    now apply (digit_tables d Hd). }
  assert (E : c :: w ++ ds0 ++ [d] = (c :: w ++ ds0) ++ [d])
    by (simpl; now rewrite app_assoc).
  rewrite E. unfold rstrip. rewrite rev_app_distr.
  change (rev [d] ++ rev (c :: w ++ ds0)) with (d :: rev (c :: w ++ ds0)).
  rewrite lstrip_starts by exact Hd.
  change (rev (d :: rev (c :: w ++ ds0)))
    with (rev (rev (c :: w ++ ds0)) ++ [d]).
  now rewrite rev_involutive.
Qed.

Lemma endswith_digit (x ds : str) :
  ds <> [] -> ascii_digits ds -> endswith (x ++ ds) (py ".") = false.
Proof.
  intros Hne Hds. destruct (exists_last Hne) as (ds0 & d & ->).
  unfold endswith. rewrite app_assoc, rev_app_distr.
  unfold ascii_digits in Hds. rewrite forallb_app in Hds.
  apply andb_true_iff in Hds as [_ Hd]. simpl in Hd. rewrite andb_true_r in Hd.
  destruct (digit_tables d Hd) as (_ & _ & _ & _ & _ & _ & _ & E).
  change (startswith (rev [d] ++ rev (x ++ ds0)) (rev (py ".")))
    with ((ch "." =? d)%N && true).
  now rewrite E.
Qed.

Lemma page_digits_title (ds : str) :
  ds <> [] -> ascii_digits ds -> List.length ds <= 115 ->
  is_title U (py "Page " ++ ds) = true.
Proof.
  intros Hne Hds Hlen. rewrite is_title_cases.
  change (py "Page " ++ ds) with (ch "P" :: py "age " ++ ds).
  rewrite word_digits_trimmed by (try reflexivity; assumption).
  change (ch "P" :: py "age " ++ ds) with (py "Page " ++ ds).
  rewrite endswith_digit by assumption.
  assert (Hl : (120 <? len (py "Page " ++ ds)) = false).
  { apply Nat.ltb_ge. unfold len. rewrite length_app. simpl. lia. }
  assert (Hw : split U (py "Page " ++ ds) = [py "Page"; ds]).
  { unfold split. simpl.
    rewrite <- (app_nil_r ds) at 1.
    rewrite split_from_word by now apply digits_nospace.
    simpl. now rewrite truthy_nonempty. }
  assert (Hi : istitle U (py "Page " ++ ds) = true)
    by (simpl; now apply istitle_loop_digits).
  rewrite Hl, Hw, Hi.
  destruct (re_match U title_pattern (py "Page " ++ ds));
    destruct (isupper U (py "Page " ++ ds)); reflexivity.
Qed.

Lemma page_digits_junk (ds : str) :
  ds <> [] -> ascii_digits ds -> is_junk U (py "Page " ++ ds) = true.
Proof.
  intros Hne Hds. rewrite is_junk_cases, re_search_anchored_stripped.
  assert (Hb : basic (py "Page " ++ ds))
    by (apply basic_app; split; [reflexivity | now apply digits_basic]).
  rewrite is_junk_basic by exact Hb.
  rewrite map_app, (digits_lower ds) by exact Hds.
  change (map ascii_lower (py "Page ") ++ ds) with (ch "p" :: py "age " ++ ds).
  rewrite word_digits_trimmed by (try reflexivity; assumption).
  assert (Hm : fullmatch U page_pattern (ch "p" :: py "age " ++ ds) = true).
  { apply fullmatch_matches, page_pattern_matches. left.
    exists (py " "), ds. split; [reflexivity |]. split; [reflexivity |].
    split; [exact Hne | now apply digits_decimal]. }
  rewrite Hm. apply orb_true_r.
Qed.

End Page_number_titles.

(** X13: the title check comes first.  A line ["Page "] followed by digits
    (a page footer in title case) is junk for [is_junk], yet it is a title
    for [is_title], so the accumulator takes it as the title of a new
    section: it saves the pending section and starts an empty block under
    that title. *)
Theorem page_footer_taken_as_title (U : ucd) (uuid4 : nat -> str) (pdf_path : str)
  (page_num : nat) (st : loop_state) (ds : str) :
  ds <> [] -> ascii_digits ds -> List.length ds <= 115 ->
  is_junk U (py "Page " ++ ds) = true /\
  is_title U (py "Page " ++ ds) = true /\
  line_step U uuid4 pdf_path page_num st (py "Page " ++ ds) =
  {| structured_data := structured_data (save_section U uuid4 pdf_path page_num st);
     uuid_calls := uuid_calls (save_section U uuid4 pdf_path page_num st);
     current_title := py "Page " ++ ds;
     current_text_block := [] |}.
Proof.
  intros Hne Hds Hlen.
  split; [now apply page_digits_junk |].
  split; [now apply page_digits_title |].
  unfold line_step. rewrite page_digits_title by assumption.
  change (py "Page " ++ ds) with (ch "P" :: py "age " ++ ds).
  now rewrite word_digits_trimmed by (try reflexivity; assumption).
Qed.

Lemma page_footer_taken_as_title_witness :
  is_junk basic_latin (py "Page " ++ py "12") = true /\
  is_title basic_latin (py "Page " ++ py "12") = true.
Proof.
  destruct (page_footer_taken_as_title basic_latin (fun _ => []) [] 0 (fresh 0)
              (py "12")) as (Hj & Ht & _);
    [discriminate | reflexivity | apply Nat.leb_le; reflexivity |].
  split; [exact Hj | exact Ht].
Defined.

(** ** A page given by its lines *)

Lemma split_on_from_line (sep : N) (line cur rest : str) :
  ~ In sep line ->
  split_on_from sep cur (line ++ rest) = split_on_from sep (cur ++ line) rest.
Proof.
  revert cur. induction line as [| c line IH]; intros cur H; simpl.
  - now rewrite app_nil_r.
  - destruct (N.eqb_spec c sep) as [-> | _]; [exfalso; apply H; now left |].
    rewrite IH by (intros Hin; apply H; now right).
    now rewrite <- app_assoc.
Qed.

Lemma split_on_join (sep : N) (lines : list str) :
  lines <> [] -> Forall (fun line => ~ In sep line) lines ->
  split_on sep (join [sep] lines) = lines.
Proof.
  unfold split_on. induction lines as [| line lines IH]; intros Hne H;
    [congruence |].
  apply Forall_cons_iff in H as [Hl Hls].
  destruct lines as [| line' lines].
  - simpl. rewrite <- (app_nil_r line) at 1.
    now rewrite split_on_from_line.
  - change (join [sep] (line :: line' :: lines))
      with (line ++ sep :: join [sep] (line' :: lines)).
    rewrite split_on_from_line by exact Hl. simpl.
    rewrite N.eqb_refl. f_equal. apply IH; [discriminate | exact Hls].
Qed.

(** X14: the lines of a page are the pieces of its text between line feeds:
    for lines without line feed, the records of the page whose text is the
    lines joined by line feeds are those the accumulator, started afresh,
    saves on these lines. *)
Theorem page_records_of_lines (U : ucd) (uuid4 : nat -> str) (pdf_path : str)
  (calls page_num : nat) (lines : list str) :
  lines <> [] -> Forall (fun line => ~ In 10%N line) lines ->
  page_records U uuid4 pdf_path calls page_num (join [10%N] lines) =
  structured_data (page_lines U uuid4 pdf_path page_num (fresh calls) lines).
Proof.
  intros Hne H. unfold page_records. now rewrite split_on_join.
Qed.

Lemma page_records_of_lines_witness :
  page_records basic_latin (fun _ => []) (py "doc.pdf") 0 0
    (join [10%N] example_lines) =
  structured_data
    (page_lines basic_latin (fun _ => []) (py "doc.pdf") 0 (fresh 0) example_lines).
Proof.
  apply page_records_of_lines; [discriminate |].
  repeat constructor; vm_compute; intuition discriminate.
Defined.

(** ** Page order, then emission order *)

(** What the walk over the lines of a page emits, as a list of pairs of a
    title and a block, in the order of the lines: a pair is emitted when a
    title line is met while the block is not blank, and at the end of the
    page if the block is not blank then.  Nothing is compared with what was
    emitted before. *)
Definition emitted (U : ucd) (title block : str) : list (str * str) :=
  if truthy (strip U block) then [(title, block)] else [].

Fixpoint emissions (U : ucd) (title block : str) (lines : list str)
  : list (str * str) :=
  match lines with
  | [] => emitted U title block
  | line :: rest =>
      if is_title U line then
        emitted U title block ++ emissions U (strip U line) [] rest
      else if negb (is_junk U line) then
        emissions U title (block ++ py " " ++ strip U line) rest
      else emissions U title block rest
  end.

(** The fields, the identifier apart, of the record made of an emitted pair
    on the page of index [page_num]. *)
Definition record_content (U : ucd) (pdf_path : str) (page_num : nat)
  (e : str * str) : nat * str * str * str :=
  (page_num + 1, fst e, normalize U (snd e), pdf_path).

Section Emission_order.

Variables (U : ucd) (uuid4 : nat -> str) (pdf_path : str).

Lemma save_section_emitted n st :
  map content (structured_data (save_section U uuid4 pdf_path n st)) =
  map content (structured_data st) ++
  map (record_content U pdf_path n)
    (emitted U (current_title st) (current_text_block st)).
Proof.
  unfold save_section, emitted. destruct (truthy _); simpl.
  - now rewrite map_app.
  - now rewrite app_nil_r.
Qed.

Lemma page_lines_emissions n lines st :
  map content (structured_data (page_lines U uuid4 pdf_path n st lines)) =
  map content (structured_data st) ++
  map (record_content U pdf_path n)
    (emissions U (current_title st) (current_text_block st) lines).
Proof.
  unfold page_lines. revert st.
  induction lines as [| line lines IH]; intros st; simpl.
  - apply save_section_emitted.
  - rewrite IH. unfold line_step. destruct (is_title U line); simpl.
    + now rewrite save_section_emitted, map_app, app_assoc.
    + destruct (negb (is_junk U line)); reflexivity.
Qed.

Lemma pages_records_emissions (pages : list (nat * str)) (calls : nat) :
  map content (pages_records U uuid4 pdf_path calls pages) =
  flat_map
    (fun page =>
       map (record_content U pdf_path (fst page))
         (emissions U default_title [] (split_on 10 (snd page))))
    pages.
Proof.
  revert calls. induction pages as [| [n t] pages IH]; intros calls; simpl;
    [reflexivity |].
  rewrite map_app, IH. f_equal. unfold page_records.
  now rewrite page_lines_emissions.
Qed.

Lemma extract_emissions (PDF_LIBRARY : pdf_library) (pages : list str) :
  map content (extract_structured_sections U uuid4 pdf_path PDF_LIBRARY pages) =
  flat_map
    (fun page =>
       map (record_content U pdf_path (fst page))
         (emissions U default_title [] (split_on 10 (snd page))))
    (enumerate pages).
Proof. rewrite extract_pages_records. apply pages_records_emissions. Qed.

(** A title line and a content line, twice over: two equal pairs. *)
Lemma emissions_repeated (T c : str) :
  is_title U T = true -> is_content U c = true ->
  exists block,
    normalize U block = normalize U c /\
    emissions U default_title [] [T; c; T; c] = [(strip U T, block); (strip U T, block)].
Proof.
  intros HT Hc. unfold is_content in Hc. apply andb_true_iff in Hc as [Hct Hcj].
  apply negb_true_iff in Hct, Hcj.
  exists (py " " ++ strip U c). split.
  - unfold normalize. f_equal.
    rewrite (split_spaces_app U (py " ") (strip U c)) by reflexivity.
    apply split_strip.
  - assert (Hb : truthy (strip U (py " " ++ strip U c)) = true).
    { rewrite <- (app_nil_r (strip U c)).
      rewrite (strip_padded U (py " ") (strip U c) []) by reflexivity.
      rewrite strip_fixed. now apply is_junk_false_strip. }
    cbn [emissions]. rewrite HT, Hct, Hcj. cbn [negb].
    change ([] ++ py " " ++ strip U c) with (py " " ++ strip U c).
    unfold emitted. rewrite Hb. reflexivity.
Qed.

End Emission_order.

(** [l1] is [l2] with some elements left out, the order kept. *)
Inductive subseq {A : Type} : list A -> list A -> Prop :=
| subseq_nil : subseq [] []
| subseq_skip x l1 l2 : subseq l1 l2 -> subseq l1 (x :: l2)
| subseq_take x l1 l2 : subseq l1 l2 -> subseq (x :: l1) (x :: l2).

Lemma subseq_refl {A : Type} (l : list A) : subseq l l.
Proof. induction l; constructor; assumption. Qed.

Lemma subseq_nil_l {A : Type} (l : list A) : subseq [] l.
Proof. induction l; constructor; assumption. Qed.

Lemma subseq_app {A : Type} (a b c d : list A) :
  subseq a b -> subseq c d -> subseq (a ++ c) (b ++ d).
Proof.
  intros Hab Hcd. induction Hab; simpl; [exact Hcd | |]; constructor; assumption.
Qed.

(** The titles a page can give, in the order of its lines: the default one,
    then its title lines, trimmed. *)
Definition page_titles (U : ucd) (page_text : str) : list str :=
  default_title :: map (strip U) (filter (is_title U) (split_on 10 page_text)).

Lemma emissions_titles (U : ucd) (lines : list str) (title block : str) :
  subseq (map fst (emissions U title block lines))
    (title :: map (strip U) (filter (is_title U) lines)).
Proof.
  revert title block. induction lines as [| line lines IH]; intros title block;
    simpl.
  - unfold emitted. destruct (truthy _); simpl;
      [apply subseq_refl | apply subseq_nil_l].
  - destruct (is_title U line); simpl.
    + rewrite map_app.
      apply (subseq_app _ [title] _ (strip U line :: _)); [| apply IH].
      unfold emitted. destruct (truthy _); simpl;
        [apply subseq_refl | apply subseq_nil_l].
    + destruct (negb (is_junk U line)); apply IH.
Qed.

Lemma extract_titles (U : ucd) (uuid4 : nat -> str) (pdf_path : str)
  (PDF_LIBRARY : pdf_library) (pages : list str) :
  subseq
    (map title (extract_structured_sections U uuid4 pdf_path PDF_LIBRARY pages))
    (flat_map (page_titles U) pages).
Proof.
  assert (E : map title (extract_structured_sections U uuid4 pdf_path PDF_LIBRARY pages) =
              map (fun c => snd (fst (fst c)))
                (map content
                   (extract_structured_sections U uuid4 pdf_path PDF_LIBRARY pages)))
    by now rewrite map_map.
  rewrite E, extract_emissions. clear E. unfold enumerate.
  generalize 0 as k. induction pages as [| t pages IH]; intros k; simpl;
    [constructor |].
  rewrite map_app, map_map. simpl.
  apply (subseq_app _ (page_titles U t)); [| apply IH].
  rewrite <- (map_map fst (fun x => x)), map_id. apply emissions_titles.
Qed.

(** C5: the list returned follows the pages in their order and, within a
    page, the order in which the walk over its lines emitted the records;
    every emitted pair of a title and a block is there once for each time it
    was emitted.  The identifiers are those drawn, in the order of the draws,
    so the position of a record is the rank of its emission.  The page
    numbers never decrease.  The titles come in the order of the lines of
    the document: they are, with some left out, the default title and the
    title lines of the first page, then those of the second, and so on.  A
    record that repeats an earlier one is kept: a page that has a title line
    and a content line twice over yields two equal records. *)
Theorem sections_in_page_then_emission_order (U : ucd) (uuid4 : nat -> str)
  (pdf_path : str) (PDF_LIBRARY : pdf_library) (pages : list str) :
  let out := extract_structured_sections U uuid4 pdf_path PDF_LIBRARY pages in
  map content out =
    flat_map
      (fun page =>
         map (record_content U pdf_path (fst page))
           (emissions U (py "General Information") [] (split_on 10 (snd page))))
      (enumerate pages) /\
  map id out = map uuid4 (seq 0 (List.length out)) /\
  StronglySorted le (map page_number out) /\
  subseq (map title out)
    (flat_map
       (fun page_text =>
          py "General Information" ::
          map (strip U) (filter (is_title U) (split_on 10 page_text)))
       pages) /\
  (forall T c : str,
      is_title U T = true -> is_content U c = true ->
      ~ In 10%N T -> ~ In 10%N c ->
      map content
        (extract_structured_sections U uuid4 pdf_path PDF_LIBRARY
           [join [10%N] [T; c; T; c]]) =
      [ (1, strip U T, normalize U c, pdf_path);
        (1, strip U T, normalize U c, pdf_path) ]).
Proof.
  cbv zeta. split; [apply extract_emissions |].
  split; [apply extract_ids |].
  split; [rewrite extract_pages_records; apply pages_records_sorted |].
  split; [apply extract_titles |].
  intros T c HT Hc HnT Hnc.
  rewrite extract_emissions. unfold enumerate.
  cbn [List.length seq combine flat_map fst snd].
  rewrite split_on_join by (try discriminate; repeat constructor; assumption).
  destruct (emissions_repeated U T c HT Hc) as (block & Hn & E).
  rewrite E.
  rewrite app_nil_r. unfold record_content. cbn [map fst snd]. now rewrite Hn.
Qed.

Lemma sections_in_page_then_emission_order_witness :
  map content
    (extract_structured_sections basic_latin (fun _ => []) (py "doc.pdf") pymupdf
       [join [10%N] [py "NOTE"; py "same  text"; py "NOTE"; py "same  text"]]) =
  [ (1, py "NOTE", py "same text", py "doc.pdf");
    (1, py "NOTE", py "same text", py "doc.pdf") ].
Proof.
  destruct (sections_in_page_then_emission_order basic_latin (fun _ => [])
              (py "doc.pdf") pymupdf []) as (_ & _ & _ & _ & H).
  apply (H (py "NOTE") (py "same  text"));
    try reflexivity; vm_compute; intuition discriminate.
Defined.

(** * The classifier as Python runs it

    Python checks at run time that each operation is given a value it
    applies to, and raises an exception otherwise.  Here the two predicates
    are written over run-time values, each operation with the cases in which
    it raises; they are then shown never to raise on a [str], and to return
    then the boolean that [is_title] and [is_junk] compute. *)

Inductive exn : Type :=
| AttributeError    (* the value has no such method *)
| TypeError.        (* the operation does not apply to a value of this type *)

Inductive result (A : Type) : Type :=
| Ok (a : A)
| Raise (e : exn).

Arguments Ok {A} a.
Arguments Raise {A} e.

Definition bind {A B : Type} (r : result A) (k : A -> result B) : result B :=
  match r with
  | Ok a => k a
  | Raise e => Raise e
  end.

Notation "x <- r ;; k" := (bind r (fun x => k))
  (at level 61, r at next level, right associativity).

(** The run-time values that occur: [None], booleans, integers, strings,
    lists of strings and match objects. *)
Inductive value : Type :=
| VNone
| VBool (b : bool)
| VInt (n : Z)
| VStr (s : str)
| VList (l : list str)
| VMatch.

(** The truth value of a value in a condition or under [not]. *)
Definition truth (v : value) : bool :=
  match v with
  | VNone => false
  | VBool b => b
  | VInt n => negb (n =? 0)%Z
  | VStr s => truthy s
  | VList l => match l with [] => false | _ :: _ => true end
  | VMatch => true
  end.

(** A method of [str] without argument: the other values have none of the
    methods used here. *)
Definition str_method (f : str -> value) (v : value) : result value :=
  match v with
  | VStr s => Ok (f s)
  | _ => Raise AttributeError
  end.

(** [len(v)] *)
Definition builtin_len (v : value) : result value :=
  match v with
  | VStr s => Ok (VInt (Z.of_nat (List.length s)))
  | VList l => Ok (VInt (Z.of_nat (List.length l)))
  | _ => Raise TypeError
  end.

(** Lexicographic order, as Python compares strings and lists. *)
Fixpoint lex_ltb {A : Type} (eqb ltb : A -> A -> bool) (a b : list A) : bool :=
  match a, b with
  | _, [] => false
  | [], _ :: _ => true
  | x :: a', y :: b' => if eqb x y then lex_ltb eqb ltb a' b' else ltb x y
  end.

Definition str_eqb (a b : str) : bool :=
  if list_eq_dec N.eq_dec a b then true else false.

Definition str_ltb : str -> str -> bool := lex_ltb N.eqb N.ltb.

(** Booleans count as the integers 0 and 1. *)
Definition as_number (v : value) : option Z :=
  match v with
  | VBool b => Some (if b then 1%Z else 0%Z)
  | VInt n => Some n
  | _ => None
  end.

(** [a < b] and [a > b] *)
Definition py_lt (a b : value) : result value :=
  match as_number a, as_number b with
  | Some x, Some y => Ok (VBool (x <? y)%Z)
  | _, _ =>
      match a, b with
      | VStr s, VStr t => Ok (VBool (str_ltb s t))
      | VList l, VList m => Ok (VBool (lex_ltb str_eqb str_ltb l m))
      | _, _ => Raise TypeError
      end
  end.

Definition py_gt (a b : value) : result value := py_lt b a.

(** [a in b] *)
Definition py_in (a b : value) : result value :=
  match b with
  | VStr s =>
      match a with
      | VStr k => Ok (VBool (contains s k))
      | _ => Raise TypeError
      end
  | VList l =>
      match a with
      | VStr k => Ok (VBool (existsb (str_eqb k) l))
      | _ => Ok (VBool false)
      end
  | _ => Raise TypeError
  end.

(** [any(f(x) for x in l)]: stops at the first true value. *)
Fixpoint py_any {A : Type} (f : A -> result value) (l : list A) : result value :=
  match l with
  | [] => Ok (VBool false)
  | x :: rest =>
      v <- f x ;;
      if truth v then Ok (VBool true) else py_any f rest
  end.

Section Run_time.

Variable U : ucd.

Definition method_strip : value -> result value :=
  str_method (fun s => VStr (strip U s)).
Definition method_lower : value -> result value :=
  str_method (fun s => VStr (lower U s)).
Definition method_split : value -> result value :=
  str_method (fun s => VList (split U s)).
Definition method_isupper : value -> result value :=
  str_method (fun s => VBool (isupper U s)).
Definition method_istitle : value -> result value :=
  str_method (fun s => VBool (istitle U s)).

(** [v.endswith(suffix)] *)
Definition method_endswith (v suffix : value) : result value :=
  match v with
  | VStr s =>
      match suffix with
      | VStr p => Ok (VBool (endswith s p))
      | _ => Raise TypeError
      end
  | _ => Raise AttributeError
  end.

(** [re.match(r, v)] and [re.search('^(r)$', v)], the pattern compiled: a
    match object or [None]. *)
Definition re_match_value (r : regex) (v : value) : result value :=
  match v with
  | VStr s => Ok (if re_match U r s then VMatch else VNone)
  | _ => Raise TypeError
  end.

Definition re_search_value (r : regex) (v : value) : result value :=
  match v with
  | VStr s => Ok (if re_search_anchored U r s then VMatch else VNone)
  | _ => Raise TypeError
  end.

(** [is_title(line)], statement by statement. *)
Definition is_title_run (line : value) : result value :=
  stripped_line <- method_strip line ;;
  empty_or_long <-
    (if negb (truth stripped_line) then Ok (VBool true)
     else n <- builtin_len stripped_line ;; py_gt n (VInt 120)) ;;
  if truth empty_or_long then Ok (VBool false) else
  ends <- method_endswith stripped_line (VStr (py ".")) ;;
  if truth ends then Ok (VBool false) else
  m <- re_match_value title_pattern stripped_line ;;
  if truth m then Ok (VBool true) else
  words <- method_split stripped_line ;;
  n <- builtin_len words ;;
  few <- py_lt n (VInt 8) ;;
  if truth few then
    upper <- method_isupper stripped_line ;;
    if truth upper then Ok (VBool true) else
    titled <- method_istitle stripped_line ;;
    if truth titled then Ok (VBool true) else Ok (VBool false)
  else Ok (VBool false).

(** [is_junk(line)], statement by statement. *)
Definition is_junk_run (line : value) : result value :=
  stripped <- method_strip line ;;
  stripped_line <- method_lower stripped ;;
  if negb (truth stripped_line) then Ok (VBool true) else
  found <- py_any (fun keyword => py_in (VStr keyword) stripped_line) junk_keywords ;;
  if truth found then Ok (VBool true) else
  m <- re_search_value page_pattern stripped_line ;;
  if truth m then Ok (VBool true) else Ok (VBool false).

Lemma py_any_in (x : str) (keywords : list str) :
  py_any (fun keyword => py_in (VStr keyword) (VStr x)) keywords =
  Ok (VBool (existsb (fun keyword => contains x keyword) keywords)).
Proof.
  induction keywords as [| k keywords IH]; simpl; [reflexivity |].
  destruct (contains x k); simpl; [reflexivity | exact IH].
Qed.

Lemma ltb_of_nat (a b : nat) : (Z.of_nat a <? Z.of_nat b)%Z = (a <? b).
Proof.
  destruct (Z.ltb_spec (Z.of_nat a) (Z.of_nat b)), (Nat.ltb_spec a b);
    try reflexivity; lia.
Qed.

Lemma py_gt_len (n k : nat) :
  py_gt (VInt (Z.of_nat n)) (VInt (Z.of_nat k)) = Ok (VBool (k <? n)).
Proof. unfold py_gt, py_lt, as_number. now rewrite ltb_of_nat. Qed.

Lemma py_lt_len (n k : nat) :
  py_lt (VInt (Z.of_nat n)) (VInt (Z.of_nat k)) = Ok (VBool (n <? k)).
Proof. unfold py_lt, as_number. now rewrite ltb_of_nat. Qed.

Lemma is_title_run_str (line : str) :
  is_title_run (VStr line) = Ok (VBool (is_title U line)).
Proof.
  unfold is_title_run, is_title.
  cbn [bind truth method_strip str_method builtin_len method_endswith
       re_match_value method_split method_isupper method_istitle].
  change 120%Z with (Z.of_nat 120). change 8%Z with (Z.of_nat 8).
  destruct (truthy (strip U line)); cbn [negb orb bind truth];
    [| reflexivity].
  rewrite py_gt_len. cbn [bind truth]. unfold len.
  destruct (120 <? List.length (strip U line)); [reflexivity |].
  destruct (endswith (strip U line) (py ".")); cbn [bind truth]; [reflexivity |].
  destruct (re_match U title_pattern (strip U line)); cbn [bind truth];
    [reflexivity |].
  rewrite py_lt_len. cbn [bind truth].
  destruct (List.length (split U (strip U line)) <? 8); [| reflexivity].
  destruct (isupper U (strip U line)); cbn [bind truth]; [reflexivity |].
  now destruct (istitle U (strip U line)).
Qed.

Lemma is_junk_run_str (line : str) :
  is_junk_run (VStr line) = Ok (VBool (is_junk U line)).
Proof.
  unfold is_junk_run, is_junk.
  cbn [bind truth method_strip method_lower str_method re_search_value].
  destruct (truthy (lower U (strip U line))); cbn [negb]; [| reflexivity].
  rewrite py_any_in. cbn [bind truth].
  destruct (existsb _ junk_keywords); [reflexivity |].
  now destruct (re_search_anchored U page_pattern (lower U (strip U line))).
Qed.

End Run_time.

(** C9: on a string, whatever it is (empty, or as long as one wants), neither
    predicate raises: every operation it performs is given a value it
    applies to, and the result is a boolean, the one [is_title] and
    [is_junk] compute. *)
Theorem classifier_never_raises (U : ucd) (line : str) :
  is_title_run U (VStr line) = Ok (VBool (is_title U line)) /\
  is_junk_run U (VStr line) = Ok (VBool (is_junk U line)).
Proof.
  split; [apply is_title_run_str | apply is_junk_run_str].
Qed.

(** On a value that is not a string both raise. *)
Example classifier_raises_on_none (U : ucd) :
  is_title_run U VNone = Raise AttributeError /\
  is_junk_run U VNone = Raise AttributeError /\
  is_title_run U (VInt 3) = Raise AttributeError /\
  is_junk_run U (VList [py "a line"]) = Raise AttributeError.
Proof. repeat split. Qed.
